(** * Talawa API: the [upVoters] connection resolver and the [updateFund]
    mutation resolver

    A shallow embedding of [src/graphql/types/Comment/upVoters.ts] (and of the
    [updateFund] mutation that follows it in the same source file), with the
    properties of the specification proved or refuted on it.

    Text is modelled as [string] (a sequence of bytes): a JavaScript string is
    represented by its UTF-8 bytes, so that [Buffer.from(str)] and
    [buf.toString("utf-8")] are the identity (bytes that are not UTF-8, which
    [toString] would replace, are kept: [JSON.parse] takes both inside a
    string and neither outside).  A [Date] is the integer number of
    milliseconds it holds.  A table is the list of its rows, and a query is
    evaluated on it with the three-valued logic of SQL; a query that selects
    no field is refused before it is sent. *)

From Stdlib Require Import List String Ascii ZArith NArith Bool Lia Sorted Btauto.
Import ListNotations.

#[local] Set Warnings "-register-all".

Local Open Scope string_scope.

(** ** Results of fallible code *)

Inductive Result (E A : Type) : Type :=
| Ok (value : A)
| Err (error : E).

Arguments Ok {E A} value.
Arguments Err {E A} error.

(** ** [Buffer]: the base64url text encoding of Node.js *)

Module Base64Url.

(** The URL-safe alphabet, used by [buf.toString("base64url")]. *)
Definition alphabet : string :=
  "ABCDEFGHIJKLMNOPQRSTUVWXYZabcdefghijklmnopqrstuvwxyz0123456789-_".

Definition char_of_sextet (v : N) : ascii :=
  match String.get (N.to_nat v) alphabet with
  | Some c => c
  | None => "A"%char
  end.

(** The value of a character when decoding.  [Buffer.from(s, "base64url")]
    accepts the standard alphabet ([+] and [/]) as well as the URL-safe one
    ([-] and [_]). *)
Definition unbase64 (c : ascii) : option N :=
  let n := N_of_ascii c in
  if ((65 <=? n) && (n <=? 90))%N then Some (n - 65)%N
  else if ((97 <=? n) && (n <=? 122))%N then Some (n - 71)%N
  else if ((48 <=? n) && (n <=? 57))%N then Some (n + 4)%N
  else if ((n =? 45) || (n =? 43))%N then Some 62%N
  else if ((n =? 95) || (n =? 47))%N then Some 63%N
  else None.

Definition byte (n : N) : ascii := ascii_of_N (n mod 256).

(** Three bytes give four sextets; a last group of one or two bytes gives
    two or three sextets, and no padding is written. *)
Fixpoint sextets_of_bytes (bs : string) : list N :=
  match bs with
  | String a (String b (String c rest)) =>
      let x := N_of_ascii a in
      let y := N_of_ascii b in
      let z := N_of_ascii c in
      (x / 4 :: (x mod 4) * 16 + y / 16 :: (y mod 16) * 4 + z / 64 :: z mod 64
         :: sextets_of_bytes rest)%N
  | String a (String b EmptyString) =>
      let x := N_of_ascii a in
      let y := N_of_ascii b in
      [x / 4; (x mod 4) * 16 + y / 16; (y mod 16) * 4]%N
  | String a EmptyString =>
      let x := N_of_ascii a in
      [x / 4; (x mod 4) * 16]%N
  | EmptyString => []
  end.

Definition string_of_chars (l : list ascii) : string :=
  fold_right String EmptyString l.

(** The sextets there are. *)
Definition sextet_range : list N := map N.of_nat (seq 0 64).

(** [buf.toString("base64url")] *)
Definition encode (bs : string) : string :=
  string_of_chars (map char_of_sextet (sextets_of_bytes bs)).

(** The sextets read from a text.  Decoding never fails: a character outside
    the alphabets is skipped, and [=] ends the input. *)
Fixpoint sextets_of_text (s : string) : list N :=
  match s with
  | EmptyString => []
  | String c rest =>
      if Ascii.eqb c "="%char then []
      else match unbase64 c with
           | Some v => v :: sextets_of_text rest
           | None => sextets_of_text rest
           end
  end.

Fixpoint bytes_of_sextets (l : list N) : string :=
  match l with
  | p :: q :: r :: s :: rest =>
      String (byte (p * 4 + q / 16))
        (String (byte ((q mod 16) * 16 + r / 4))
           (String (byte ((r mod 4) * 64 + s)) (bytes_of_sextets rest)))
  | [p; q; r] =>
      String (byte (p * 4 + q / 16))
        (String (byte ((q mod 16) * 16 + r / 4)) EmptyString)
  | [p; q] => String (byte (p * 4 + q / 16)) EmptyString
  | _ => EmptyString
  end%N.

(** [Buffer.from(s, "base64url")] *)
Definition decode (s : string) : string :=
  bytes_of_sextets (sextets_of_text s).

(** A text is valid base64url when all its characters are in the URL-safe
    alphabet and it does not end in a lone sextet. *)
Definition is_url_char (c : ascii) : bool :=
  let n := N_of_ascii c in
  ((65 <=? n) && (n <=? 90) || (97 <=? n) && (n <=? 122)
   || (48 <=? n) && (n <=? 57) || (n =? 45) || (n =? 95))%N.

Fixpoint all_url_chars (s : string) : bool :=
  match s with
  | EmptyString => true
  | String c rest => is_url_char c && all_url_chars rest
  end.


End Base64Url.


(** ** [JSON.stringify] and [JSON.parse] *)

Module JSON.

(** A number keeps the text it was written with. *)
Inductive json : Type :=
| JNull
| JBool (b : bool)
| JNumber (lexeme : string)
| JString (s : string)
| JArray (items : list json)
| JObject (members : list (string * json)).

Definition dquote : ascii := "034"%char.
Definition backslash : ascii := "092"%char.

Definition code (c : ascii) : N := N_of_ascii c.

(** *** Writing *)

Definition hex_digit (n : N) : ascii :=
  match String.get (N.to_nat n) "0123456789abcdef" with
  | Some c => c
  | None => "0"%char
  end.

(** [QuoteJSONString]: the quote, the backslash and the control characters
    are escaped, every other character is written as it is. *)
Definition quote_char (c : ascii) : string :=
  let n := code c in
  if (n =? 34)%N then String backslash (String dquote "")
  else if (n =? 92)%N then String backslash (String backslash "")
  else if (n =? 8)%N then String backslash "b"
  else if (n =? 9)%N then String backslash "t"
  else if (n =? 10)%N then String backslash "n"
  else if (n =? 12)%N then String backslash "f"
  else if (n =? 13)%N then String backslash "r"
  else if (n <? 32)%N then
    String backslash
      (String "u" (String "0" (String "0"
         (String (hex_digit (n / 16)) (String (hex_digit (n mod 16)) "")))))
  else String c "".

Fixpoint quote_body (s : string) : string :=
  match s with
  | EmptyString => ""
  | String c rest => quote_char c ++ quote_body rest
  end.

Definition quote (s : string) : string :=
  String dquote (quote_body s ++ String dquote "").

Fixpoint join (sep : string) (l : list string) : string :=
  match l with
  | [] => ""
  | [x] => x
  | x :: rest => x ++ sep ++ join sep rest
  end.

Fixpoint stringify (v : json) : string :=
  match v with
  | JNull => "null"
  | JBool true => "true"
  | JBool false => "false"
  | JNumber lexeme => lexeme
  | JString s => quote s
  | JArray items => "[" ++ join "," (map stringify items) ++ "]"
  | JObject members =>
      "{" ++ join ","
               (map (fun m => match m with
                              | (k, x) => quote k ++ ":" ++ stringify x
                              end) members) ++ "}"
  end.

(** *** Reading *)

Definition is_ws (c : ascii) : bool :=
  let n := code c in ((n =? 32) || (n =? 9) || (n =? 10) || (n =? 13))%N.

Fixpoint skip_ws (s : string) : string :=
  match s with
  | String c rest => if is_ws c then skip_ws rest else s
  | EmptyString => ""
  end.

Definition is_digit (c : ascii) : bool :=
  let n := code c in ((48 <=? n) && (n <=? 57))%N.

Definition hex_value (c : ascii) : option N :=
  let n := code c in
  if ((48 <=? n) && (n <=? 57))%N then Some (n - 48)%N
  else if ((97 <=? n) && (n <=? 102))%N then Some (n - 87)%N
  else if ((65 <=? n) && (n <=? 70))%N then Some (n - 55)%N
  else None.

Definition hex4 (a b c d : ascii) : option N :=
  match hex_value a, hex_value b, hex_value c, hex_value d with
  | Some p, Some q, Some r, Some s => Some (((p * 16 + q) * 16 + r) * 16 + s)%N
  | _, _, _, _ => None
  end.

(** The character a one-letter escape stands for. *)
Definition unescape (e : ascii) : option ascii :=
  let n := code e in
  if (n =? 34)%N then Some dquote
  else if (n =? 92)%N then Some backslash
  else if (n =? 47)%N then Some "/"%char
  else if (n =? 98)%N then Some "008"%char
  else if (n =? 102)%N then Some "012"%char
  else if (n =? 110)%N then Some "010"%char
  else if (n =? 114)%N then Some "013"%char
  else if (n =? 116)%N then Some "009"%char
  else None.

(** What a string literal holds: bytes written as they are, and UTF-16 code
    units written as [\uXXXX]. *)
Inductive item : Type :=
| Raw (c : ascii)
| Unit (cu : N).

Definition push (i : item) (r : option (list item * string))
  : option (list item * string) :=
  match r with
  | Some (items, rest) => Some (i :: items, rest)
  | None => None
  end.

(** The items of a string literal whose opening quote has been read, and
    the text after its closing quote. *)
Fixpoint string_items (s : string) : option (list item * string) :=
  match s with
  | EmptyString => None
  | String c rest =>
      if (code c =? 34)%N then Some ([], rest)
      else if (code c =? 92)%N then
        match rest with
        | EmptyString => None
        | String e rest1 =>
            if (code e =? 117)%N then
              match rest1 with
              | String h1 (String h2 (String h3 (String h4 rest2))) =>
                  match hex4 h1 h2 h3 h4 with
                  | Some cu => push (Unit cu) (string_items rest2)
                  | None => None
                  end
              | _ => None
              end
            else
              match unescape e with
              | Some c' => push (Raw c') (string_items rest1)
              | None => None
              end
        end
      else if (code c <? 32)%N then None
      else push (Raw c) (string_items rest)
  end.

(** The UTF-8 bytes of a code point. *)
Definition utf8 (cp : N) : string :=
  let b := Base64Url.byte in
  (if cp <? 128 then String (b cp) ""
   else if cp <? 2048 then
     String (b (192 + cp / 64)) (String (b (128 + cp mod 64)) "")
   else if cp <? 65536 then
     String (b (224 + cp / 4096))
       (String (b (128 + (cp / 64) mod 64)) (String (b (128 + cp mod 64)) ""))
   else
     String (b (240 + cp / 262144))
       (String (b (128 + (cp / 4096) mod 64))
          (String (b (128 + (cp / 64) mod 64))
             (String (b (128 + cp mod 64)) ""))))%N.

Definition is_high_surrogate (cu : N) : bool :=
  ((55296 <=? cu) && (cu <=? 56319))%N.
Definition is_low_surrogate (cu : N) : bool :=
  ((56320 <=? cu) && (cu <=? 57343))%N.

(** The bytes of the items; a surrogate pair is one code point. *)
Fixpoint bytes_of_items (l : list item) : string :=
  match l with
  | [] => ""
  | Raw c :: rest => String c (bytes_of_items rest)
  | Unit cu :: rest =>
      if is_high_surrogate cu then
        match rest with
        | Unit lo :: rest' =>
            if is_low_surrogate lo then
              utf8 (65536 + (cu - 55296) * 1024 + (lo - 56320))%N
                ++ bytes_of_items rest'
            else utf8 cu ++ bytes_of_items rest
        | _ => utf8 cu ++ bytes_of_items rest
        end
      else utf8 cu ++ bytes_of_items rest
  end.

(** The item a character is read back as, once quoted. *)
Definition item_of (c : ascii) : item :=
  let n := code c in
  if ((n <? 32) && negb ((n =? 8) || (n =? 9) || (n =? 10) || (n =? 12)
                         || (n =? 13)))%N
  then Unit n else Raw c.

(** The items a text is read back as, once quoted. *)
Fixpoint items_of (s : string) : list item :=
  match s with
  | EmptyString => []
  | String c rest => item_of c :: items_of rest
  end.

Definition parse_string (s : string) : option (string * string) :=
  match string_items s with
  | Some (items, rest) => Some (bytes_of_items items, rest)
  | None => None
  end.

(** The longest prefix of digits, and what follows it. *)
Fixpoint digits (s : string) : string * string :=
  match s with
  | String c rest =>
      if is_digit c then
        let (ds, rest') := digits rest in (String c ds, rest')
      else ("", s)
  | EmptyString => ("", "")
  end.

Definition lex_int (s : string) : option (string * string) :=
  match s with
  | String c rest =>
      if (code c =? 48)%N then Some ("0", rest)
      else if is_digit c then
        let (ds, rest') := digits rest in Some (String c ds, rest')
      else None
  | EmptyString => None
  end.

Definition lex_frac (s : string) : option (string * string) :=
  match s with
  | String c rest =>
      if (code c =? 46)%N then
        match digits rest with
        | (EmptyString, _) => None
        | (ds, rest') => Some (String c ds, rest')
        end
      else Some ("", s)
  | EmptyString => Some ("", "")
  end.

Definition lex_exp (s : string) : option (string * string) :=
  match s with
  | String c rest =>
      if ((code c =? 101) || (code c =? 69))%N then
        let (sign, rest1) :=
          match rest with
          | String g rest' =>
              if ((code g =? 43) || (code g =? 45))%N
              then (String g "", rest') else ("", rest)
          | EmptyString => ("", rest)
          end in
        match digits rest1 with
        | (EmptyString, _) => None
        | (ds, rest2) => Some (String c (sign ++ ds), rest2)
        end
      else Some ("", s)
  | EmptyString => Some ("", "")
  end.

Definition lex_number (s : string) : option (string * string) :=
  let (sign, s1) :=
    match s with
    | String c rest => if (code c =? 45)%N then ("-", rest) else ("", s)
    | EmptyString => ("", s)
    end in
  match lex_int s1 with
  | None => None
  | Some (i, s2) =>
      match lex_frac s2 with
      | None => None
      | Some (f, s3) =>
          match lex_exp s3 with
          | None => None
          | Some (e, s4) => Some (sign ++ i ++ f ++ e, s4)
          end
      end
  end.

(** [expect w s]: the text after the word [w] at the start of [s]. *)
Fixpoint expect (w s : string) : option string :=
  match w, s with
  | EmptyString, _ => Some s
  | String a w', String b s' => if Ascii.eqb a b then expect w' s' else None
  | String _ _, EmptyString => None
  end.

Definition literal (w : string) (v : json) (s : string)
  : option (json * string) :=
  match expect w s with
  | Some rest => Some (v, rest)
  | None => None
  end.

(** A value, the elements of an array after its bracket and the members of
    an object after its brace, each with the text that follows.  The fuel
    bounds the depth of the calls. *)
Fixpoint parse_value (fuel : nat) (s : string) : option (json * string) :=
  match fuel with
  | O => None
  | S fuel' =>
      match skip_ws s with
      | EmptyString => None
      | String c rest =>
          if (code c =? 110)%N then literal "ull" JNull rest
          else if (code c =? 116)%N then literal "rue" (JBool true) rest
          else if (code c =? 102)%N then literal "alse" (JBool false) rest
          else if (code c =? 34)%N then
            match parse_string rest with
            | Some (str, rest') => Some (JString str, rest')
            | None => None
            end
          else if (code c =? 91)%N then
            match skip_ws rest with
            | String d rest' =>
                if (code d =? 93)%N then Some (JArray [], rest')
                else match parse_elements fuel' rest with
                     | Some (items, rest'') => Some (JArray items, rest'')
                     | None => None
                     end
            | EmptyString => None
            end
          else if (code c =? 123)%N then
            match skip_ws rest with
            | String d rest' =>
                if (code d =? 125)%N then Some (JObject [], rest')
                else match parse_members fuel' rest with
                     | Some (members, rest'') => Some (JObject members, rest'')
                     | None => None
                     end
            | EmptyString => None
            end
          else
            match lex_number (String c rest) with
            | Some (lexeme, rest') => Some (JNumber lexeme, rest')
            | None => None
            end
      end
  end

with parse_elements (fuel : nat) (s : string) : option (list json * string) :=
  match fuel with
  | O => None
  | S fuel' =>
      match parse_value fuel' s with
      | None => None
      | Some (v, rest) =>
          match skip_ws rest with
          | String d rest' =>
              if (code d =? 93)%N then Some ([v], rest')
              else if (code d =? 44)%N then
                match parse_elements fuel' rest' with
                | Some (items, rest'') => Some (v :: items, rest'')
                | None => None
                end
              else None
          | EmptyString => None
          end
      end
  end

with parse_members (fuel : nat) (s : string)
  : option (list (string * json) * string) :=
  match fuel with
  | O => None
  | S fuel' =>
      match skip_ws s with
      | String q rest =>
          if (code q =? 34)%N then
            match parse_string rest with
            | None => None
            | Some (key, rest1) =>
                match skip_ws rest1 with
                | String colon rest2 =>
                    if (code colon =? 58)%N then
                      match parse_value fuel' rest2 with
                      | None => None
                      | Some (v, rest3) =>
                          match skip_ws rest3 with
                          | String d rest4 =>
                              if (code d =? 125)%N
                              then Some ([(key, v)], rest4)
                              else if (code d =? 44)%N then
                                match parse_members fuel' rest4 with
                                | Some (members, rest5) =>
                                    Some ((key, v) :: members, rest5)
                                | None => None
                                end
                              else None
                          | EmptyString => None
                          end
                      end
                    else None
                | EmptyString => None
                end
            end
          else None
      | EmptyString => None
      end
  end.

(** [JSON.parse]: one value, with nothing but white space after it. *)
Definition parse (s : string) : option json :=
  match parse_value (2 * String.length s + 2) s with
  | Some (v, rest) =>
      match skip_ws rest with
      | EmptyString => Some v
      | String _ _ => None
      end
  | None => None
  end.

(** The value of a property of an object: of its last member of that name,
    as [JSON.parse] keeps the last of two members of one name. *)
Fixpoint property (key : string) (members : list (string * json))
  : option json :=
  match members with
  | [] => None
  | (k, v) :: rest =>
      match property key rest with
      | Some v' => Some v'
      | None => if String.eqb k key then Some v else None
      end
  end.

End JSON.

(** ** [Date.prototype.toISOString] *)

Module Date.

Local Open Scope Z_scope.

Definition digit (n : Z) : ascii := ascii_of_N (Z.to_N (48 + n mod 10)).

(** [n] in decimal, on [width] digits. *)
Fixpoint pad (width : nat) (n : Z) : string :=
  match width with
  | O => ""
  | S w => pad w (n / 10) ++ String (digit n) ""
  end.

(** The year, month and day of a number of days since 1970-01-01, in the
    proleptic Gregorian calendar. *)
Definition civil (days : Z) : Z * Z * Z :=
  let z := days + 719468 in
  let era := z / 146097 in
  let doe := z - era * 146097 in
  let yoe := (doe - doe / 1460 + doe / 36524 - doe / 146096) / 365 in
  let doy := doe - (365 * yoe + yoe / 4 - yoe / 100) in
  let mp := (5 * doy + 2) / 153 in
  let d := doy - (153 * mp + 2) / 5 + 1 in
  let m := if mp <? 10 then mp + 3 else mp - 9 in
  let y := yoe + era * 400 + (if m <=? 2 then 1 else 0) in
  (y, m, d).

(** A year is written on four digits, or with a sign and six digits when
    four do not hold it. *)
Definition year (y : Z) : string :=
  if (0 <=? y) && (y <=? 9999) then pad 4 y
  else if y <? 0 then "-" ++ pad 6 (- y)
  else "+" ++ pad 6 y.

Definition toISOString (t : Z) : string :=
  let ms := t mod 86400000 in
  match civil (t / 86400000) with
  | (y, m, d) =>
      year y ++ "-" ++ pad 2 m ++ "-" ++ pad 2 d ++ "T"
        ++ pad 2 (ms / 3600000) ++ ":" ++ pad 2 ((ms / 60000) mod 60) ++ ":"
        ++ pad 2 ((ms / 1000) mod 60) ++ "." ++ pad 3 (ms mod 1000) ++ "Z"
  end.

End Date.


(** ** Validation results ([zod]) *)

Module Zod.

Record issue : Type := {
  code : string;
  message : string;
  path : list string;
}.

(** What [safeParse] returns: the data, or the issues found. *)
Inductive SafeParse (A : Type) : Type :=
| success (data : A)
| failure (error_issues : list issue).

Arguments success {A} data.
Arguments failure {A} error_issues.

(** [z.date().parse] on a value that [JSON.parse] returned.  The schema
    accepts [Date] objects; a parsed value is null, a boolean, a number, a
    string, an array or a plain object, so none passes. *)
Definition date (v : JSON.json) : option Z := None.

End Zod.

(** ** [TalawaGraphQLError] *)

Inductive ErrorCode : Type :=
| unauthenticated
| invalid_arguments
| arguments_associated_resources_not_found
| forbidden_action_on_arguments_associated_resources
| unauthorized_action_on_arguments_associated_resources
| unexpected.

Record Issue : Type := {
  argumentPath : list string;
  message : option string;
}.

(** An error without [issues] in its extensions has the empty list. *)
Record Extensions : Type := {
  code : ErrorCode;
  issues : list Issue;
}.

Record TalawaGraphQLError : Type := {
  extensions : Extensions;
  errorMessage : string;
}.

Definition invalidArguments (error_issues : list Zod.issue)
  : TalawaGraphQLError :=
  {| extensions :=
       {| code := invalid_arguments;
          issues := map (fun issue =>
                           {| argumentPath := Zod.path issue;
                              message := Some (Zod.message issue) |})
                        error_issues |};
     errorMessage := "Invalid arguments provided." |}.

Definition resourcesNotFound (argumentPath : list string)
  : TalawaGraphQLError :=
  {| extensions :=
       {| code := arguments_associated_resources_not_found;
          issues := [ {| argumentPath := argumentPath; message := None |} ] |};
     errorMessage :=
       "No associated resources found for the provided arguments." |}.

(** ** Rows of the tables *)

Inductive Role : Type :=
| administrator
| regular.

Definition is_administrator (r : Role) : bool :=
  match r with
  | administrator => true
  | regular => false
  end.

Module User.
Record t : Type := {
  id : string;
  role : Role;
}.
End User.

Inductive VoteType : Type :=
| down_vote
| up_vote.

Module CommentVote.
(** [creatorId] is null once the voter is deleted. *)
Record t : Type := {
  createdAt : Z;
  creatorId : option string;
  commentId : string;
  type : VoteType;
}.
End CommentVote.

Module Fund.
Record t : Type := {
  id : string;
  isTaxDeductible : bool;
  name : string;
  organizationId : string;
  updaterId : option string;
}.
End Fund.

Module OrganizationMembership.
Record t : Type := {
  memberId : string;
  organizationId : string;
  role : Role;
}.
End OrganizationMembership.

(** The rows the database holds, table by table. *)
Record DrizzleClient : Type := {
  commentVotes : list CommentVote.t;
  funds : list Fund.t;
  organizationMemberships : list OrganizationMembership.t;
  users : list User.t;
}.

(** ** Queries ([drizzle-orm]) *)

Module drizzle.

(** A value of a column or of a query parameter. *)
Inductive Value : Type :=
| null
| timestamp (t : Z)
| text (s : string).

(** The filter operators, over the columns [C] of one table.  [exists_ w]
    is [exists(select().from(table).where(w))], a query of its own on the
    same table. *)
Inductive SQL (C : Type) : Type :=
| and (conditions : list (SQL C))
| or (conditions : list (SQL C))
| eq (column : C) (value : Value)
| ne (column : C) (value : Value)
| gt (column : C) (value : Value)
| lt (column : C) (value : Value)
| exists_ (where_ : SQL C).

Arguments and {C} conditions.
Arguments or {C} conditions.
Arguments eq {C} column value.
Arguments ne {C} column value.
Arguments gt {C} column value.
Arguments lt {C} column value.
Arguments exists_ {C} where_.

Inductive Order (C : Type) : Type :=
| asc (column : C)
| desc (column : C).

Arguments asc {C} column.
Arguments desc {C} column.

(** Comparison in a filter: unknown ([None]) when a side is null. *)
Definition compare (a b : Value) : option comparison :=
  match a, b with
  | timestamp x, timestamp y => Some (Z.compare x y)
  | text x, text y => Some (String.compare x y)
  | _, _ => None
  end.

Definition test (p : comparison -> bool) (a b : Value) : option bool :=
  option_map p (compare a b).

Definition is_Eq (c : comparison) : bool :=
  match c with Eq => true | _ => false end.
Definition is_Lt (c : comparison) : bool :=
  match c with Lt => true | _ => false end.
Definition is_Gt (c : comparison) : bool :=
  match c with Gt => true | _ => false end.

(** The three-valued connectives of SQL. *)
Definition and3 (a b : option bool) : option bool :=
  match a, b with
  | Some false, _ | _, Some false => Some false
  | Some true, Some true => Some true
  | _, _ => None
  end.

Definition or3 (a b : option bool) : option bool :=
  match a, b with
  | Some true, _ | _, Some true => Some true
  | Some false, Some false => Some false
  | _, _ => None
  end.

Definition holds (v : option bool) : bool :=
  match v with
  | Some true => true
  | _ => false
  end.

(** [DrizzleError]: the error of the query builder, here the one of a
    query that selects nothing, "No fields selected for table ...". *)
Inductive DrizzleError : Type :=
| noFieldsSelected.

Section Table.
Context {R C : Type}.
(** The value of a column in a row. *)
Variable get : R -> C -> Value.
Variable table : list R.

Fixpoint eval (w : SQL C) (row : R) : option bool :=
  match w with
  | and conditions =>
      fold_right (fun c acc => and3 (eval c row) acc) (Some true) conditions
  | or conditions =>
      fold_right (fun c acc => or3 (eval c row) acc) (Some false) conditions
  | eq column value => test is_Eq (get row column) value
  | ne column value => test (fun c => negb (is_Eq c)) (get row column) value
  | gt column value => test is_Gt (get row column) value
  | lt column value => test is_Lt (get row column) value
  | exists_ w' => Some (existsb (fun r => holds (eval w' r)) table)
  end.

(** A row is selected when the filter is true on it (not false, not
    unknown). *)
Definition selects (w : SQL C) (row : R) : bool := holds (eval w row).

(** Order of two values in a sort: null is larger than any value.  (The
    values of one column have one type; values of two types are ordered
    only to keep the order total.) *)
Definition compare_sort (a b : Value) : comparison :=
  match a, b with
  | null, null => Eq
  | null, _ => Gt
  | _, null => Lt
  | timestamp x, timestamp y => Z.compare x y
  | text x, text y => String.compare x y
  | timestamp _, text _ => Lt
  | text _, timestamp _ => Gt
  end.

Definition compare_by (o : Order C) (a b : R) : comparison :=
  match o with
  | asc column => compare_sort (get a column) (get b column)
  | desc column => compare_sort (get b column) (get a column)
  end.

(** Order of two rows under [orderBy]: the first term that tells them
    apart decides. *)
Fixpoint compare_rows (orderBy : list (Order C)) (a b : R) : comparison :=
  match orderBy with
  | [] => Eq
  | o :: rest =>
      match compare_by o a b with
      | Eq => compare_rows rest a b
      | c => c
      end
  end.

Definition before (orderBy : list (Order C)) (a b : R) : bool :=
  match compare_rows orderBy a b with
  | Gt => false
  | _ => true
  end.

Definition Before (orderBy : list (Order C)) (a b : R) : Prop :=
  before orderBy a b = true.

Fixpoint insert (orderBy : list (Order C)) (x : R) (l : list R) : list R :=
  match l with
  | [] => [x]
  | y :: rest =>
      if before orderBy x y then x :: l else y :: insert orderBy x rest
  end.

Definition sort (orderBy : list (Order C)) (l : list R) : list R :=
  fold_right (insert orderBy) [] l.

(** [findMany({ limit, orderBy, where })] *)
Definition findMany (limit : nat) (orderBy : list (Order C)) (where_ : SQL C)
  : list R :=
  firstn limit (sort orderBy (filter (selects where_) table)).

(** [findFirst({ where })] of a query that selects a column or a relation. *)
Definition findFirst (where_ : SQL C) : option R :=
  find (selects where_) table.

(** [findFirst({ columns, where })] of a query that selects the columns it
    lists, and no relation or extra field.  The query is built before it is
    sent: a selection of no field at all is refused there, with a
    [DrizzleError], and no row is read. *)
Definition findFirstColumns (columns : list C) (where_ : SQL C)
  : Result DrizzleError (option R) :=
  match columns with
  | [] => Err noFieldsSelected
  | _ :: _ => Ok (find (selects where_) table)
  end.

(** [update(table).set(...).where(...).returning()]: the table after the
    update, and the rows it changed. *)
Definition update (set : R -> R) (where_ : SQL C) : list R * list R :=
  (map (fun row => if selects where_ row then set row else row) table,
   map set (filter (selects where_) table)).

End Table.

End drizzle.

(** ** The [upVoters] connection of a comment *)

Module Comment.
Record t : Type := {
  id : string;
}.
End Comment.

(** The columns of the comment votes table.  An identifier is compared as
    the text it is written with, which for UUIDs in their canonical form is
    the order of the database. *)
Module commentVotesTable.

Inductive column : Type :=
| createdAt
| creatorId
| commentId
| type.

Definition type_label (t : VoteType) : string :=
  match t with
  | down_vote => "down_vote"
  | up_vote => "up_vote"
  end.

Definition get (row : CommentVote.t) (c : column) : drizzle.Value :=
  match c with
  | createdAt => drizzle.timestamp (CommentVote.createdAt row)
  | creatorId =>
      match CommentVote.creatorId row with
      | Some i => drizzle.text i
      | None => drizzle.null
      end
  | commentId => drizzle.text (CommentVote.commentId row)
  | type => drizzle.text (type_label (CommentVote.type row))
  end.

End commentVotesTable.

(** The connection arguments in their uniform shape, with a cursor of type
    [K]: the text received, then the position decoded from it. *)
Record ConnectionArguments (K : Type) : Type := {
  cursor : option K;
  isInversed : bool;
  limit : nat;
}.

Arguments cursor {K} _.
Arguments isInversed {K} _.
Arguments limit {K} _.

(** A position in the votes of a comment. *)
Module Cursor.
Record t : Type := {
  createdAt : Z;
  creatorId : string;
}.
End Cursor.

(** A vote as [findMany] returns it: the two columns asked for, and the
    [creator] relation. *)
Module Vote.
Record t (U : Type) : Type := {
  createdAt : Z;
  creatorId : option string;
  creator : U;
}.
Arguments createdAt {U} _.
Arguments creatorId {U} _.
Arguments creator {U} _.
End Vote.

Module Edge.
Record t : Type := {
  cursor : string;
  node : User.t;
}.
End Edge.

Record Connection : Type := {
  edges : list Edge.t;
}.

(** Modelled from the spec: [transformToDefaultGraphQLConnection], of
    [src/utilities/defaultGraphQLConnection], which is not among the sources.
    Each raw node gives one edge, whose node is the raw node's [createNode]
    and whose cursor is its [createCursor].  The page-info, which the
    specification derives from the limit and the direction, is left out. *)
Definition transformToDefaultGraphQLConnection {RawNode K : Type}
    (createCursor : RawNode -> string) (createNode : RawNode -> User.t)
    (parsedArgs : ConnectionArguments K) (rawNodes : list RawNode)
  : Connection :=
  {| edges := map (fun rawNode => {| Edge.cursor := createCursor rawNode;
                                     Edge.node := createNode rawNode |})
                  rawNodes |}.

(** What the resolver takes from declarations that are not in this file:
    the connection arguments schema of [defaultGraphQLConnection] and the
    column schemas of [commentVotesTableInsertSchema]. *)
Class Declarations : Type := {
  (* the arguments of the field, as received *)
  Args : Type;
  (* defaultGraphQLConnectionArgumentsSchema
       .transform(transformDefaultGraphQLConnectionArguments) *)
  defaultGraphQLConnectionArguments :
    Args -> Zod.SafeParse (ConnectionArguments string);
  (* commentVotesTableInsertSchema.shape.createdAt.unwrap(): the schema
     drizzle-zod gives a column of dates is z.date(), Zod.date *)
  createdAtSchema : JSON.json -> option Z;
  (* commentVotesTableInsertSchema.shape.creatorId.unwrap().unwrap() *)
  creatorIdSchema : JSON.json -> option string;
}.

Module UpVoters.
Section Resolver.

Context {decl : Declarations}.

(** [cursorSchema.parse]: an object whose two properties pass their
    schemas; a property that is missing does not. *)
Definition cursorSchema_parse (v : JSON.json) : option Cursor.t :=
  match v with
  | JSON.JObject members =>
      match JSON.property "createdAt" members,
            JSON.property "creatorId" members with
      | Some a, Some b =>
          match createdAtSchema a, creatorIdSchema b with
          | Some createdAt, Some creatorId =>
              Some {| Cursor.createdAt := createdAt;
                      Cursor.creatorId := creatorId |}
          | _, _ => None
          end
      | _, _ => None
      end
  | _ => None
  end.

(** The body of the [try] block:
    [cursorSchema.parse(JSON.parse(Buffer.from(arg.cursor, "base64url")
     .toString("utf-8")))], [None] when it throws. *)
Definition decodeCursor (cursor : string) : option Cursor.t :=
  match JSON.parse (Base64Url.decode cursor) with
  | Some v => cursorSchema_parse v
  | None => None
  end.

Definition argumentName (isInversed : bool) : string :=
  if isInversed then "before" else "after".

(** The second [transform] of [upVotersArgumentsSchema]. *)
Definition transformCursor (arg : ConnectionArguments string)
  : Zod.SafeParse (ConnectionArguments Cursor.t) :=
  match cursor arg with
  | None =>
      Zod.success {| cursor := None;
                     isInversed := isInversed arg;
                     limit := limit arg |}
  | Some text =>
      match decodeCursor text with
      | Some c =>
          Zod.success {| cursor := Some c;
                         isInversed := isInversed arg;
                         limit := limit arg |}
      | None =>
          Zod.failure
            [ {| Zod.code := "custom";
                 Zod.message := "Not a valid cursor.";
                 Zod.path := [argumentName (isInversed arg)] |} ]
      end
  end.

(** [upVotersArgumentsSchema.safeParse]: a transform runs on what the
    schema before it accepted. *)
Definition upVotersArgumentsSchema_safeParse (args : Args)
  : Zod.SafeParse (ConnectionArguments Cursor.t) :=
  match defaultGraphQLConnectionArguments args with
  | Zod.failure error_issues => Zod.failure error_issues
  | Zod.success arg => transformCursor arg
  end.

Import commentVotesTable.

Definition orderBy (isInversed : bool) : list (drizzle.Order column) :=
  if isInversed
  then [drizzle.asc createdAt; drizzle.asc creatorId]
  else [drizzle.desc createdAt; drizzle.desc creatorId].

Definition where_ (parent : Comment.t) (cursor : option Cursor.t)
    (isInversed : bool) : drizzle.SQL column :=
  if isInversed then
    match cursor with
    | Some cursor =>
        drizzle.and
          [ drizzle.exists_
              (drizzle.and
                 [ drizzle.eq createdAt
                     (drizzle.timestamp (Cursor.createdAt cursor));
                   drizzle.eq creatorId
                     (drizzle.text (Cursor.creatorId cursor));
                   drizzle.eq commentId (drizzle.text (Comment.id parent));
                   drizzle.eq type (drizzle.text "up_vote") ]);
            drizzle.eq commentId (drizzle.text (Comment.id parent));
            drizzle.eq type (drizzle.text "up_vote");
            drizzle.or
              [ drizzle.and
                  [ drizzle.eq createdAt
                      (drizzle.timestamp (Cursor.createdAt cursor));
                    drizzle.gt creatorId
                      (drizzle.text (Cursor.creatorId cursor)) ];
                drizzle.gt createdAt
                  (drizzle.timestamp (Cursor.createdAt cursor)) ] ]
    | None =>
        drizzle.and
          [ drizzle.ne creatorId drizzle.null;
            drizzle.eq commentId (drizzle.text (Comment.id parent));
            drizzle.eq type (drizzle.text "up_vote") ]
    end
  else
    match cursor with
    | Some cursor =>
        drizzle.and
          [ drizzle.exists_
              (drizzle.and
                 [ drizzle.eq createdAt
                     (drizzle.timestamp (Cursor.createdAt cursor));
                   drizzle.eq creatorId
                     (drizzle.text (Cursor.creatorId cursor));
                   drizzle.eq commentId (drizzle.text (Comment.id parent));
                   drizzle.eq type (drizzle.text "up_vote") ]);
            drizzle.eq commentId (drizzle.text (Comment.id parent));
            drizzle.eq type (drizzle.text "up_vote");
            drizzle.or
              [ drizzle.and
                  [ drizzle.eq createdAt
                      (drizzle.timestamp (Cursor.createdAt cursor));
                    drizzle.lt creatorId
                      (drizzle.text (Cursor.creatorId cursor)) ];
                drizzle.lt createdAt
                  (drizzle.timestamp (Cursor.createdAt cursor)) ] ]
    | None =>
        drizzle.and
          [ drizzle.ne creatorId drizzle.null;
            drizzle.eq commentId (drizzle.text (Comment.id parent));
            drizzle.eq type (drizzle.text "up_vote") ]
    end.

(** [columns: { createdAt, creatorId }, with: { creator: true }]: the
    creator is the user the vote's [creatorId] refers to, null when there is
    none. *)
Definition withCreator (client : DrizzleClient) (row : CommentVote.t)
  : Vote.t (option User.t) :=
  {| Vote.createdAt := CommentVote.createdAt row;
     Vote.creatorId := CommentVote.creatorId row;
     Vote.creator :=
       match CommentVote.creatorId row with
       | Some i => find (fun u => String.eqb (User.id u) i) (users client)
       | None => None
       end |}.

(** The rows the resolver fetches. *)
Definition fetch (client : DrizzleClient) (parent : Comment.t)
    (parsedArgs : ConnectionArguments Cursor.t)
  : list (Vote.t (option User.t)) :=
  map (withCreator client)
    (drizzle.findMany get (commentVotes client) (limit parsedArgs)
       (orderBy (isInversed parsedArgs))
       (where_ parent (cursor parsedArgs) (isInversed parsedArgs))).

(** [vote.creator !== null], with the narrowing of its type guard. *)
Definition hasCreator (vote : Vote.t (option User.t))
  : option (Vote.t User.t) :=
  match Vote.creator vote with
  | Some u => Some {| Vote.createdAt := Vote.createdAt vote;
                      Vote.creatorId := Vote.creatorId vote;
                      Vote.creator := u |}
  | None => None
  end.

(** [votes.filter(hasCreator)] *)
Fixpoint filterCreators (votes : list (Vote.t (option User.t)))
  : list (Vote.t User.t) :=
  match votes with
  | [] => []
  | vote :: rest =>
      match hasCreator vote with
      | Some v => v :: filterCreators rest
      | None => filterCreators rest
      end
  end.

(** [JSON.stringify({ createdAt, creatorId })] writes the two properties in
    this order, the date through its [toJSON]. *)
Definition cursorObject (createdAt : Z) (creatorId : option string)
  : JSON.json :=
  JSON.JObject
    [ ("createdAt", JSON.JString (Date.toISOString createdAt));
      ("creatorId", match creatorId with
                    | Some i => JSON.JString i
                    | None => JSON.JNull
                    end) ].

Definition createCursor {U} (vote : Vote.t U) : string :=
  Base64Url.encode
    (JSON.stringify (cursorObject (Vote.createdAt vote) (Vote.creatorId vote))).

Definition createNode (vote : Vote.t User.t) : User.t := Vote.creator vote.

Definition isEmpty {A} (l : list A) : bool :=
  match l with
  | [] => true
  | _ :: _ => false
  end.

Definition isSome {A} (o : option A) : bool :=
  match o with
  | Some _ => true
  | None => false
  end.

(** The [resolve] function of the field. *)
Definition upVoters (parent : Comment.t) (args : Args)
    (client : DrizzleClient) : Result TalawaGraphQLError Connection :=
  match upVotersArgumentsSchema_safeParse args with
  | Zod.failure error_issues => Err (invalidArguments error_issues)
  | Zod.success parsedArgs =>
      let commentVotes := fetch client parent parsedArgs in
      if isSome (cursor parsedArgs) && isEmpty commentVotes then
        Err (resourcesNotFound [argumentName (isInversed parsedArgs)])
      else
        Ok (transformToDefaultGraphQLConnection
              createCursor createNode parsedArgs
              (filterCreators commentVotes))
  end.

End Resolver.
End UpVoters.

(** ** The page of up-voters, as the specification words it *)

Module UpVotersSpec.

Definition is_up_vote (t : VoteType) : bool :=
  match t with
  | up_vote => true
  | down_vote => false
  end.

Definition string_gtb (a b : string) : bool :=
  match String.compare a b with
  | Gt => true
  | _ => false
  end.

Definition string_ltb (a b : string) : bool :=
  match String.compare a b with
  | Lt => true
  | _ => false
  end.

(** The base filter: the votes of the comment that are up votes. *)
Definition baseFilter (parent : Comment.t) (row : CommentVote.t) : bool :=
  String.eqb (CommentVote.commentId row) (Comment.id parent)
  && is_up_vote (CommentVote.type row).

(** The row the cursor was made from. *)
Definition isCursorRow (parent : Comment.t) (c : Cursor.t)
    (row : CommentVote.t) : bool :=
  Z.eqb (CommentVote.createdAt row) (Cursor.createdAt c)
  && match CommentVote.creatorId row with
     | Some i => String.eqb i (Cursor.creatorId c)
     | None => false
     end
  && String.eqb (CommentVote.commentId row) (Comment.id parent)
  && is_up_vote (CommentVote.type row).

Definition cursorRowExists (parent : Comment.t) (c : Cursor.t)
    (table : list CommentVote.t) : bool :=
  existsb (isCursorRow parent c) table.

(** The rows strictly after the cursor: larger keys when inversed, smaller
    keys when forward.  A row without creator is on neither side of a
    creator. *)
Definition keysetRange (isInversed : bool) (c : Cursor.t)
    (row : CommentVote.t) : bool :=
  let sameInstant := Z.eqb (CommentVote.createdAt row) (Cursor.createdAt c) in
  if isInversed then
    sameInstant
    && match CommentVote.creatorId row with
       | Some i => string_gtb i (Cursor.creatorId c)
       | None => false
       end
    || Z.gtb (CommentVote.createdAt row) (Cursor.createdAt c)
  else
    sameInstant
    && match CommentVote.creatorId row with
       | Some i => string_ltb i (Cursor.creatorId c)
       | None => false
       end
    || Z.ltb (CommentVote.createdAt row) (Cursor.createdAt c).

Definition cursorFilter (parent : Comment.t) (c : Cursor.t)
    (isInversed : bool) (table : list CommentVote.t) (row : CommentVote.t)
  : bool :=
  baseFilter parent row
  && cursorRowExists parent c table
  && keysetRange isInversed c row.

(** Order of two creators, the absent one last. *)
Definition creatorLe (a b : option string) : Prop :=
  match a, b with
  | _, None => True
  | None, Some _ => False
  | Some x, Some y => String.leb x y = true
  end.

(** Ascending and descending order on (createdAt, creatorId). *)
Definition ascending {U} (a b : Vote.t U) : Prop :=
  (Vote.createdAt a < Vote.createdAt b)%Z
  \/ (Vote.createdAt a = Vote.createdAt b
      /\ creatorLe (Vote.creatorId a) (Vote.creatorId b)).

Definition descending {U} (a b : Vote.t U) : Prop := ascending b a.

Definition ordered {U} (isInversed : bool) (a b : Vote.t U) : Prop :=
  if isInversed then ascending a b else descending a b.

(** The creators that are there, in the order of their votes. *)
Fixpoint creators (votes : list (Vote.t (option User.t))) : list User.t :=
  match votes with
  | [] => []
  | vote :: rest =>
      match Vote.creator vote with
      | Some u => u :: creators rest
      | None => creators rest
      end
  end.

(** A cursor made of a pair that the schemas of the two columns read back
    from what [JSON.stringify] writes for it. *)
Definition validPair {decl : Declarations} (createdAt : Z)
    (creatorId : string) : Prop :=
  createdAtSchema (JSON.JString (Date.toISOString createdAt)) = Some createdAt
  /\ creatorIdSchema (JSON.JString creatorId) = Some creatorId.

End UpVotersSpec.

(** ** The [updateFund] mutation *)

(** The columns the filters of the mutation name. *)
Module usersTable.
Inductive column : Type :=
| id.
Definition get (row : User.t) (c : column) : drizzle.Value :=
  match c with
  | id => drizzle.text (User.id row)
  end.
End usersTable.

Module fundsTable.
Inductive column : Type :=
| id
| name
| organizationId.
Definition get (row : Fund.t) (c : column) : drizzle.Value :=
  match c with
  | id => drizzle.text (Fund.id row)
  | name => drizzle.text (Fund.name row)
  | organizationId => drizzle.text (Fund.organizationId row)
  end.
End fundsTable.

Module organizationMembershipsTable.
Inductive column : Type :=
| memberId
| organizationId.
Definition get (row : OrganizationMembership.t) (c : column)
  : drizzle.Value :=
  match c with
  | memberId => drizzle.text (OrganizationMembership.memberId row)
  | organizationId => drizzle.text (OrganizationMembership.organizationId row)
  end.
End organizationMembershipsTable.

Module MutationUpdateFundInput.
Record t : Type := {
  id : string;
  isTaxDeductible : option bool;
  name : option string;
}.
End MutationUpdateFundInput.

(** [ctx.currentClient] *)
Inductive CurrentClient : Type :=
| unauthenticatedClient
| authenticatedClient (userId : string).

(** What the mutation takes from a declaration that is not in this file:
    the schema of its input, [mutationUpdateFundInputSchema]. *)
Class FundDeclarations : Type := {
  (* the arguments of the field, as received *)
  FundArgs : Type;
  (* mutationUpdateFundArgumentsSchema.safeParse, giving parsedArgs.input *)
  mutationUpdateFundArgumentsSchema_safeParse :
    FundArgs -> Zod.SafeParse MutationUpdateFundInput.t;
}.

(** What the resolver throws: an error of its own, or the error of a query,
    which it does not catch. *)
Inductive Thrown : Type :=
| graphQLError (error : TalawaGraphQLError)
| drizzleError (error : drizzle.DrizzleError).

Module UpdateFund.
Section Resolver.

Context {decl : FundDeclarations}.

Definition unauthenticatedError : TalawaGraphQLError :=
  {| extensions := {| code := unauthenticated; issues := [] |};
     errorMessage := "Only authenticated users can perform this action." |}.

Definition nameNotAvailable : TalawaGraphQLError :=
  {| extensions :=
       {| code := forbidden_action_on_arguments_associated_resources;
          issues := [ {| argumentPath := ["input"; "name"];
                         message := Some "This name is not available." |} ] |};
     errorMessage :=
       "This action is forbidden on the resources associated to the provided arguments." |}.

Definition unauthorizedError : TalawaGraphQLError :=
  {| extensions :=
       {| code := unauthorized_action_on_arguments_associated_resources;
          issues := [ {| argumentPath := ["input"; "id"]; message := None |} ] |};
     errorMessage :=
       "You are not authorized to perform this action on the resources associated to the provided arguments." |}.

Definition unexpectedError : TalawaGraphQLError :=
  {| extensions := {| code := unexpected; issues := [] |};
     errorMessage := "Something went wrong. Please try again." |}.

(** The user looked up for the caller. *)
Definition currentUser (client : DrizzleClient) (currentUserId : string)
  : option User.t :=
  drizzle.findFirst usersTable.get (users client)
    (drizzle.eq usersTable.id (drizzle.text currentUserId)).

(** The fund looked up for the input. *)
Definition existingFund (client : DrizzleClient)
    (input : MutationUpdateFundInput.t) : option Fund.t :=
  drizzle.findFirst fundsTable.get (funds client)
    (drizzle.eq fundsTable.id (drizzle.text (MutationUpdateFundInput.id input))).

(** [existingFund.organization.organizationMembershipsWhereOrganization]:
    the memberships of the fund's organization, those of the caller. *)
Definition organizationMembershipsWhereOrganization
    (client : DrizzleClient) (fund : Fund.t) (currentUserId : string)
  : list OrganizationMembership.t :=
  let table := organizationMemberships client in
  filter
    (drizzle.selects organizationMembershipsTable.get table
       (drizzle.eq organizationMembershipsTable.memberId
          (drizzle.text currentUserId)))
    (filter
       (drizzle.selects organizationMembershipsTable.get table
          (drizzle.eq organizationMembershipsTable.organizationId
             (drizzle.text (Fund.organizationId fund))))
       table).

(** The name query: [findFirst({ columns: {}, where })].  It selects no
    column and no relation, so it throws whatever the table holds. *)
Definition existingFundWithName (client : DrizzleClient) (fund : Fund.t)
    (name : string) : Result drizzle.DrizzleError (option Fund.t) :=
  drizzle.findFirstColumns fundsTable.get (funds client) []
    (drizzle.and
       [ drizzle.eq fundsTable.name (drizzle.text name);
         drizzle.eq fundsTable.organizationId
           (drizzle.text (Fund.organizationId fund)) ]).

(** The block [if (parsedArgs.input.name !== undefined)]: it throws what the
    name query throws, or its own error when the query returns a fund. *)
Definition nameCheck (client : DrizzleClient) (fund : Fund.t)
    (input : MutationUpdateFundInput.t) : Result Thrown unit :=
  match MutationUpdateFundInput.name input with
  | Some name =>
      match existingFundWithName client fund name with
      | Err error => Err (drizzleError error)
      | Ok (Some _) => Err (graphQLError nameNotAvailable)
      | Ok None => Ok tt
      end
  | None => Ok tt
  end.

(** The condition under which the authorization check throws. *)
Definition notAuthorized (user : User.t)
    (currentUserOrganizationMembership : option OrganizationMembership.t)
  : bool :=
  negb (is_administrator (User.role user))
  && match currentUserOrganizationMembership with
     | None => true
     | Some membership =>
         negb (is_administrator (OrganizationMembership.role membership))
     end.

(** [.set({ isTaxDeductible, name, updaterId })]: a property that is
    undefined leaves its column as it is. *)
Definition set (input : MutationUpdateFundInput.t) (currentUserId : string)
    (fund : Fund.t) : Fund.t :=
  {| Fund.id := Fund.id fund;
     Fund.isTaxDeductible :=
       match MutationUpdateFundInput.isTaxDeductible input with
       | Some b => b
       | None => Fund.isTaxDeductible fund
       end;
     Fund.name :=
       match MutationUpdateFundInput.name input with
       | Some n => n
       | None => Fund.name fund
       end;
     Fund.organizationId := Fund.organizationId fund;
     Fund.updaterId := Some currentUserId |}.

Definition withFunds (client : DrizzleClient) (table : list Fund.t)
  : DrizzleClient :=
  {| commentVotes := commentVotes client;
     funds := table;
     organizationMemberships := organizationMemberships client;
     users := users client |}.

(** The [resolve] function of the field: what it returns or throws, and the
    database it leaves.  Its queries see the database of the call: no other
    request runs between them. *)
Definition updateFund (args : FundArgs) (currentClient : CurrentClient)
    (client : DrizzleClient) : Result Thrown Fund.t * DrizzleClient :=
  match currentClient with
  | unauthenticatedClient => (Err (graphQLError unauthenticatedError), client)
  | authenticatedClient currentUserId =>
      match mutationUpdateFundArgumentsSchema_safeParse args with
      | Zod.failure error_issues =>
          (Err (graphQLError (invalidArguments error_issues)), client)
      | Zod.success input =>
          match currentUser client currentUserId with
          | None => (Err (graphQLError unauthenticatedError), client)
          | Some user =>
              match existingFund client input with
              | None =>
                  (Err (graphQLError (resourcesNotFound ["input"; "id"])),
                   client)
              | Some fund =>
                  match nameCheck client fund input with
                  | Err error => (Err error, client)
                  | Ok _ =>
                    let currentUserOrganizationMembership :=
                      hd_error
                        (organizationMembershipsWhereOrganization
                           client fund currentUserId) in
                    if notAuthorized user currentUserOrganizationMembership
                    then (Err (graphQLError unauthorizedError), client)
                    else
                      let (table, returning) :=
                        drizzle.update fundsTable.get (funds client)
                          (set input currentUserId)
                          (drizzle.eq fundsTable.id
                             (drizzle.text (MutationUpdateFundInput.id input))) in
                      match returning with
                      | [] =>
                          (Err (graphQLError unexpectedError),
                           withFunds client table)
                      | updatedFund :: _ =>
                          (Ok updatedFund, withFunds client table)
                      end
                  end
              end
          end
      end
  end.

End Resolver.
End UpdateFund.

(** ** The authorization of [updateFund], as the specification words it *)

Module UpdateFundSpec.

(** The membership of a user in an organization. *)
Definition membership (client : DrizzleClient)
    (organizationId memberId : string) : option OrganizationMembership.t :=
  find (fun m =>
          String.eqb (OrganizationMembership.organizationId m) organizationId
          && String.eqb (OrganizationMembership.memberId m) memberId)
       (organizationMemberships client).

(** The caller is an administrator, or an administrator of the
    organization that owns the fund. *)
Definition permitted (client : DrizzleClient) (currentUserId : string)
    (user : User.t) (fund : Fund.t) : Prop :=
  User.role user = administrator
  \/ exists m,
       membership client (Fund.organizationId fund) currentUserId = Some m
       /\ OrganizationMembership.role m = administrator.

End UpdateFundSpec.

(** ** Example declarations and data *)

Module Example.

(** *** Schemas for the two properties of a cursor

    The schemas of the columns are declared with the table, which is not in
    this file.  Those below are modelled from the spec, which has a cursor
    decode to "a timestamp-like value and an identifier-like value": they
    stand for any schemas under which a cursor is accepted, in the examples
    of what the resolver does then.  The schema that the source names for
    [createdAt] is [Zod.date], taken up in [dateDeclarations]. *)

Definition digitValue (c : ascii) : option Z :=
  if JSON.is_digit c then Some (Z.of_N (JSON.code c) - 48)%Z else None.

Fixpoint numberFrom (acc : Z) (s : string) : option Z :=
  match s with
  | EmptyString => Some acc
  | String c rest =>
      match digitValue c with
      | Some d => numberFrom (acc * 10 + d)%Z rest
      | None => None
      end
  end.

Definition number (s : string) : option Z :=
  match s with
  | EmptyString => None
  | _ => numberFrom 0%Z s
  end.

Definition daysFromCivil (y m d : Z) : Z :=
  (let y' := if m <=? 2 then y - 1 else y in
   let era := y' / 400 in
   let yoe := y' - era * 400 in
   let mp := if m >? 2 then m - 3 else m + 9 in
   let doy := (153 * mp + 2) / 5 + d - 1 in
   let doe := yoe * 365 + yoe / 4 - yoe / 100 + doy in
   era * 146097 + doe - 719468)%Z.

Definition at_ (n : nat) (c : ascii) (s : string) : bool :=
  match String.get n s with
  | Some c' => Ascii.eqb c c'
  | None => false
  end.

Definition datetime (s : string) : option Z :=
  if Nat.eqb (String.length s) 24
     && at_ 4 "-" s && at_ 7 "-" s && at_ 10 "T" s && at_ 13 ":" s
     && at_ 16 ":" s && at_ 19 "." s && at_ 23 "Z" s
  then
    match number (substring 0 4 s), number (substring 5 2 s),
          number (substring 8 2 s), number (substring 11 2 s),
          number (substring 14 2 s), number (substring 17 2 s),
          number (substring 20 3 s) with
    | Some y, Some m, Some d, Some h, Some mi, Some sec, Some ms =>
        Some (daysFromCivil y m d * 86400000 + h * 3600000 + mi * 60000
              + sec * 1000 + ms)%Z
    | _, _, _, _, _, _, _ => None
    end
  else None.

(** Modelled from the spec: a schema of [createdAt] that reads the
    timestamp of a cursor back, from the text [toISOString] gave it, as
    [new Date] does.  It is not the schema of the source. *)
Definition datetimeSchema (v : JSON.json) : option Z :=
  match v with
  | JSON.JString s => datetime s
  | _ => None
  end.

Fixpoint uuidShape (n : nat) (s : string) : bool :=
  match s with
  | EmptyString => Nat.eqb n 36
  | String c rest =>
      (if Nat.eqb n 8 || Nat.eqb n 13 || Nat.eqb n 18 || Nat.eqb n 23
       then Ascii.eqb c "-"
       else match JSON.hex_value c with
            | Some _ => true
            | None => false
            end)
      && uuidShape (S n) rest
  end.

(** Modelled from the spec: a schema of [creatorId] that accepts the text
    of a UUID. *)
Definition uuidSchema (v : JSON.json) : option string :=
  match v with
  | JSON.JString s => if uuidShape 0 s then Some s else None
  | _ => None
  end.

(** Declarations whose arguments arrive in their uniform shape, with the
    two schemas above: under them the resolver accepts the cursors it
    makes. *)
Definition declarations : Declarations :=
  {| Args := ConnectionArguments string;
     defaultGraphQLConnectionArguments := Zod.success;
     createdAtSchema := datetimeSchema;
     creatorIdSchema := uuidSchema |}.

(** The same with the schema of [createdAt] that the source names,
    [commentVotesTableInsertSchema.shape.createdAt.unwrap()], the [z.date()]
    of a column of dates. *)
Definition dateDeclarations : Declarations :=
  {| Args := ConnectionArguments string;
     defaultGraphQLConnectionArguments := Zod.success;
     createdAtSchema := Zod.date;
     creatorIdSchema := uuidSchema |}.

(** *** A comment with four up votes, the second of a deleted user *)

Definition ada : User.t :=
  {| User.id := "0190a1b2-0000-7000-8000-000000000001"; User.role := regular |}.
Definition bob : User.t :=
  {| User.id := "0190a1b2-0000-7000-8000-000000000002"; User.role := regular |}.
Definition cyd : User.t :=
  {| User.id := "0190a1b2-0000-7000-8000-000000000003";
     User.role := administrator |}.

Definition comment : Comment.t := {| Comment.id := "comment-1" |}.

Definition vote (createdAt : Z) (creatorId : option string) : CommentVote.t :=
  {| CommentVote.createdAt := createdAt;
     CommentVote.creatorId := creatorId;
     CommentVote.commentId := Comment.id comment;
     CommentVote.type := up_vote |}.

Definition votes : list CommentVote.t :=
  [ vote 1704067200000 (Some (User.id ada));
    vote 1704067201000 None;
    vote 1704067202000 (Some (User.id bob));
    vote 1704067203000 (Some (User.id cyd)) ].

Definition client : DrizzleClient :=
  {| commentVotes := votes;
     funds := [];
     organizationMemberships := [];
     users := [ada; bob; cyd] |}.

(** The cursor of the first vote. *)
Definition firstCursor : string :=
  UpVoters.createCursor (UpVoters.withCreator client
                           (vote 1704067200000 (Some (User.id ada)))).

(** *** An organization with two funds *)

(** Declarations whose input arrives parsed. *)
Definition fundDeclarations : FundDeclarations :=
  {| FundArgs := MutationUpdateFundInput.t;
     mutationUpdateFundArgumentsSchema_safeParse := Zod.success |}.

Definition general : Fund.t :=
  {| Fund.id := "fund-1"; Fund.isTaxDeductible := false;
     Fund.name := "General"; Fund.organizationId := "org-1";
     Fund.updaterId := None |}.

Definition building : Fund.t :=
  {| Fund.id := "fund-2"; Fund.isTaxDeductible := true;
     Fund.name := "Building"; Fund.organizationId := "org-1";
     Fund.updaterId := Some (User.id ada) |}.

(** [ada] administers the organization, [bob] is a regular member of it,
    and [cyd], an administrator of the application, is no member. *)
Definition fundClient : DrizzleClient :=
  {| commentVotes := [];
     funds := [general; building];
     organizationMemberships :=
       [ {| OrganizationMembership.memberId := User.id bob;
            OrganizationMembership.organizationId := "org-1";
            OrganizationMembership.role := regular |};
         {| OrganizationMembership.memberId := User.id ada;
            OrganizationMembership.organizationId := "org-1";
            OrganizationMembership.role := administrator |} ];
     users := [ada; bob; cyd] |}.

Definition sameName : MutationUpdateFundInput.t :=
  {| MutationUpdateFundInput.id := "fund-1";
     MutationUpdateFundInput.isTaxDeductible := Some true;
     MutationUpdateFundInput.name := Some "General" |}.

Definition onlyTaxDeductible : MutationUpdateFundInput.t :=
  {| MutationUpdateFundInput.id := "fund-1";
     MutationUpdateFundInput.isTaxDeductible := Some true;
     MutationUpdateFundInput.name := None |}.

Definition newName : MutationUpdateFundInput.t :=
  {| MutationUpdateFundInput.id := "fund-1";
     MutationUpdateFundInput.isTaxDeductible := None;
     MutationUpdateFundInput.name := Some "Relief" |}.

End Example.



(** ** A page and its cursor *)

Module PageSpec.

(** The vote has the key of the cursor. *)
Definition sameKey {U} (c : Cursor.t) (vote : Vote.t U) : Prop :=
  Vote.createdAt vote = Cursor.createdAt c
  /\ Vote.creatorId vote = Some (Cursor.creatorId c).

(** The vote lies strictly beyond the cursor in the direction of the
    traversal: later, or at the same instant with a larger creator, when
    inversed; earlier, or at the same instant with a smaller creator, when
    forward. *)
Definition beyond {U} (isInversed : bool) (c : Cursor.t) (vote : Vote.t U)
  : Prop :=
  if isInversed then
    (Cursor.createdAt c < Vote.createdAt vote)%Z
    \/ (Vote.createdAt vote = Cursor.createdAt c
        /\ exists i, Vote.creatorId vote = Some i
                     /\ String.compare i (Cursor.creatorId c) = Gt)
  else
    (Vote.createdAt vote < Cursor.createdAt c)%Z
    \/ (Vote.createdAt vote = Cursor.createdAt c
        /\ exists i, Vote.creatorId vote = Some i
                     /\ String.compare i (Cursor.creatorId c) = Lt).

(** The filter of a page selects the row. *)
Definition selected (client : DrizzleClient) (parent : Comment.t)
    (parsedArgs : ConnectionArguments Cursor.t) (row : CommentVote.t) : bool :=
  drizzle.selects commentVotesTable.get (commentVotes client)
    (UpVoters.where_ parent (cursor parsedArgs) (isInversed parsedArgs)) row.

(** The rows behind the votes fetched. *)
Definition rows (client : DrizzleClient) (parent : Comment.t)
    (parsedArgs : ConnectionArguments Cursor.t) : list CommentVote.t :=
  drizzle.findMany commentVotesTable.get (commentVotes client)
    (limit parsedArgs) (UpVoters.orderBy (isInversed parsedArgs))
    (UpVoters.where_ parent (cursor parsedArgs) (isInversed parsedArgs)).

End PageSpec.

(** ** The funds table *)

Module FundTable.

(** What the update makes of a row: the fund of the input's id is set, the
    others are as they were. *)
Definition updateRow (input : MutationUpdateFundInput.t)
    (currentUserId : string) (row : Fund.t) : Fund.t :=
  if String.eqb (Fund.id row) (MutationUpdateFundInput.id input)
  then UpdateFund.set input currentUserId row
  else row.

(** No two funds have the same id. *)
Definition uniqueIds (table : list Fund.t) : Prop :=
  NoDup (map Fund.id table).

(** The organization and the name of a fund. *)
Definition key (f : Fund.t) : string * string :=
  (Fund.organizationId f, Fund.name f).

(** No two funds of an organization have the same name. *)
Definition uniqueNames (table : list Fund.t) : Prop :=
  NoDup (map key table).

End FundTable.

(** ** [updateFund] among other requests

    The resolver awaits four queries: the two lookups of [Promise.all], the
    name query and the update.  No transaction holds them together, so
    another request may write between two of them: each query finds the
    database as it is when it runs. *)

Record Timeline : Type := {
  atUserQuery : DrizzleClient;
  atFundQuery : DrizzleClient;
  atNameQuery : DrizzleClient;
  atUpdate : DrizzleClient;
}.

(** When nothing else writes. *)
Definition still (client : DrizzleClient) : Timeline :=
  {| atUserQuery := client; atFundQuery := client;
     atNameQuery := client; atUpdate := client |}.

Module UpdateFundAcross.
Section Resolver.

Context {decl : FundDeclarations}.

(** The [resolve] function of the field, each of its queries on the database
    of its time: what it returns or throws, and the database after its update
    statement (the one of that time, as it is, when the call throws before). *)
Definition updateFund (args : FundArgs) (currentClient : CurrentClient)
    (t : Timeline) : Result Thrown Fund.t * DrizzleClient :=
  match currentClient with
  | unauthenticatedClient =>
      (Err (graphQLError UpdateFund.unauthenticatedError), atUpdate t)
  | authenticatedClient currentUserId =>
      match mutationUpdateFundArgumentsSchema_safeParse args with
      | Zod.failure error_issues =>
          (Err (graphQLError (invalidArguments error_issues)), atUpdate t)
      | Zod.success input =>
          match UpdateFund.currentUser (atUserQuery t) currentUserId with
          | None =>
              (Err (graphQLError UpdateFund.unauthenticatedError), atUpdate t)
          | Some user =>
              match UpdateFund.existingFund (atFundQuery t) input with
              | None =>
                  (Err (graphQLError (resourcesNotFound ["input"; "id"])),
                   atUpdate t)
              | Some fund =>
                  match UpdateFund.nameCheck (atNameQuery t) fund input with
                  | Err error => (Err error, atUpdate t)
                  | Ok _ =>
                    let currentUserOrganizationMembership :=
                      hd_error
                        (UpdateFund.organizationMembershipsWhereOrganization
                           (atFundQuery t) fund currentUserId) in
                    if UpdateFund.notAuthorized user
                         currentUserOrganizationMembership
                    then
                      (Err (graphQLError UpdateFund.unauthorizedError),
                       atUpdate t)
                    else
                      let (table, returning) :=
                        drizzle.update fundsTable.get (funds (atUpdate t))
                          (UpdateFund.set input currentUserId)
                          (drizzle.eq fundsTable.id
                             (drizzle.text (MutationUpdateFundInput.id input))) in
                      match returning with
                      | [] =>
                          (Err (graphQLError UpdateFund.unexpectedError),
                           UpdateFund.withFunds (atUpdate t) table)
                      | updatedFund :: _ =>
                          (Ok updatedFund,
                           UpdateFund.withFunds (atUpdate t) table)
                      end
                  end
              end
          end
      end
  end.

End Resolver.
End UpdateFundAcross.

(** ** More calls of [updateFund] on the example *)

Module Scenario.

Definition unknownFund : MutationUpdateFundInput.t :=
  {| MutationUpdateFundInput.id := "fund-9";
     MutationUpdateFundInput.isTaxDeductible := Some true;
     MutationUpdateFundInput.name := None |}.

(** The name of the other fund of the organization. *)
Definition takenName : MutationUpdateFundInput.t :=
  {| MutationUpdateFundInput.id := "fund-1";
     MutationUpdateFundInput.isTaxDeductible := None;
     MutationUpdateFundInput.name := Some "Building" |}.

(** An input that gives nothing to update, and declarations whose schema
    rejects it. *)
Definition nothingGiven : MutationUpdateFundInput.t :=
  {| MutationUpdateFundInput.id := "fund-1";
     MutationUpdateFundInput.isTaxDeductible := None;
     MutationUpdateFundInput.name := None |}.

Definition strictDeclarations : FundDeclarations :=
  {| FundArgs := MutationUpdateFundInput.t;
     mutationUpdateFundArgumentsSchema_safeParse :=
       fun input =>
         match MutationUpdateFundInput.isTaxDeductible input,
               MutationUpdateFundInput.name input with
         | None, None =>
             Zod.failure
               [ {| Zod.code := "custom";
                    Zod.message :=
                      "At least one optional argument must be provided.";
                    Zod.path := ["input"] |} ]
         | _, _ => Zod.success input
         end |}.

(** Another request has given the fund "Building" the name "Relief", by a
    statement of its own, after the name query of the call and before its
    update. *)
Definition renamed : Timeline :=
  {| atUserQuery := Example.fundClient;
     atFundQuery := Example.fundClient;
     atNameQuery := Example.fundClient;
     atUpdate :=
       UpdateFund.withFunds Example.fundClient
         [ Example.general;
           {| Fund.id := "fund-2"; Fund.isTaxDeductible := true;
              Fund.name := "Relief"; Fund.organizationId := "org-1";
              Fund.updaterId := Some (User.id Example.ada) |} ] |}.

(** The fund "General" is deleted after the lookups of the call and before
    its update. *)
Definition deleted : Timeline :=
  {| atUserQuery := Example.fundClient;
     atFundQuery := Example.fundClient;
     atNameQuery := Example.fundClient;
     atUpdate := UpdateFund.withFunds Example.fundClient [Example.building] |}.

End Scenario.

(** * Properties *)

(** ** The definitions on small inputs *)

Module Checks.

Example encode_hello : Base64Url.encode "hello" = "aGVsbG8".
Proof. reflexivity. Qed.

Example decode_skips_unknown_characters :
  Base64Url.decode "aGV sbG8!" = "hello".
Proof. reflexivity. Qed.

Example decode_stops_at_padding : Base64Url.decode "aGk=aGk" = "hi".
Proof. reflexivity. Qed.

Example decode_standard_alphabet :
  Base64Url.decode "Pz8+" = "??>" /\ Base64Url.decode "Pz8-" = "??>".
Proof. split; reflexivity. Qed.

Example toISOString_leap_day :
  Date.toISOString 1709210096789 = "2024-02-29T12:34:56.789Z".
Proof. reflexivity. Qed.

Example toISOString_before_epoch :
  Date.toISOString (-1) = "1969-12-31T23:59:59.999Z".
Proof. reflexivity. Qed.

Example parse_nested :
  JSON.parse "[1, -2.5e+3, true, null, [], {}]"
  = Some (JSON.JArray
            [ JSON.JNumber "1"; JSON.JNumber "-2.5e+3"; JSON.JBool true;
              JSON.JNull; JSON.JArray []; JSON.JObject [] ]).
Proof. reflexivity. Qed.

Example parse_rejects :
  JSON.parse "" = None /\ JSON.parse "01" = None /\ JSON.parse "[1,]" = None
  /\ JSON.parse "{} x" = None.
Proof. repeat split. Qed.

Example stringify_escapes :
  JSON.stringify (JSON.JString (String "010" (String JSON.dquote "a")))
  = String JSON.dquote
      ("\n\" ++ String JSON.dquote ("a" ++ String JSON.dquote "")).
Proof. reflexivity. Qed.

Example firstCursor_text :
  Base64Url.decode Example.firstCursor
  = JSON.stringify
      (JSON.JObject
         [ ("createdAt", JSON.JString "2024-01-01T00:00:00.000Z");
           ("creatorId", JSON.JString "0190a1b2-0000-7000-8000-000000000001") ]).
Proof. reflexivity. Qed.

(** With the schema of [createdAt] that the source names, the cursor of
    the first vote is refused. *)
Example first_cursor_refused :
  UpVoters.upVoters (decl := Example.dateDeclarations) Example.comment
    {| cursor := Some Example.firstCursor; isInversed := true; limit := 2 |}
    Example.client
  = Err (invalidArguments
           [ {| Zod.code := "custom"; Zod.message := "Not a valid cursor.";
                Zod.path := ["before"] |} ]).
Proof. reflexivity. Qed.

(** With a schema that reads the timestamp back.  After the first vote,
    inversed: the vote of the deleted user is fetched and dropped. *)
Example page_after_first_vote :
  UpVoters.upVoters (decl := Example.declarations) Example.comment
    {| cursor := Some Example.firstCursor; isInversed := true; limit := 2 |}
    Example.client
  = Ok {| edges :=
            [ {| Edge.cursor :=
                   UpVoters.createCursor
                     {| Vote.createdAt := 1704067202000%Z;
                        Vote.creatorId := Some (User.id Example.bob);
                        Vote.creator := Example.bob |};
                 Edge.node := Example.bob |} ] |}.
Proof. reflexivity. Qed.

(** Before the first vote, forward: nothing, which is an error. *)
Example page_before_first_vote :
  UpVoters.upVoters (decl := Example.declarations) Example.comment
    {| cursor := Some Example.firstCursor; isInversed := false; limit := 2 |}
    Example.client
  = Err (resourcesNotFound ["after"]).
Proof. reflexivity. Qed.

(** A call that gives a name stops at its name query; one that gives none
    is carried out. *)
Example rename_throws :
  UpdateFund.updateFund (decl := Example.fundDeclarations) Example.newName
    (authenticatedClient (User.id Example.ada)) Example.fundClient
  = (Err (drizzleError drizzle.noFieldsSelected), Example.fundClient).
Proof. reflexivity. Qed.

Example update_without_name :
  UpdateFund.updateFund (decl := Example.fundDeclarations)
    Example.onlyTaxDeductible (authenticatedClient (User.id Example.ada))
    Example.fundClient
  = (Ok (UpdateFund.set Example.onlyTaxDeductible (User.id Example.ada)
           Example.general),
     UpdateFund.withFunds Example.fundClient
       [ UpdateFund.set Example.onlyTaxDeductible (User.id Example.ada)
           Example.general;
         Example.building ]).
Proof. reflexivity. Qed.

End Checks.

(** ** The codecs *)

Module Base64UrlFacts.
Import Base64Url.

Lemma triples_ind (P : string -> Prop) :
  P EmptyString ->
  (forall a, P (String a EmptyString)) ->
  (forall a b, P (String a (String b EmptyString))) ->
  (forall a b c rest, P rest -> P (String a (String b (String c rest)))) ->
  forall s, P s.
Proof.
  intros H0 H1 H2 H3.
  assert (step : forall s, P s /\ (forall a, P (String a s))
                           /\ (forall a b, P (String a (String b s)))).
  { induction s as [|c s (IH0 & IH1 & IH2)].
    - repeat split; auto.
    - repeat split; auto. }
  intro s; apply step.
Qed.

Lemma in_sextet_range v : (v < 64)%N -> In v sextet_range.
Proof.
  intro H. unfold sextet_range.
  rewrite <- (N2Nat.id v). apply in_map. apply in_seq. lia.
Qed.

Lemma unbase64_char_of_sextet v :
  (v < 64)%N -> unbase64 (char_of_sextet v) = Some v.
Proof.
  intro H. apply in_sextet_range in H. revert v H.
  apply Forall_forall. unfold sextet_range.
  repeat (constructor; [reflexivity|]). constructor.
Qed.

Lemma char_of_sextet_not_pad v :
  (v < 64)%N -> Ascii.eqb (char_of_sextet v) "="%char = false.
Proof.
  intro H. apply in_sextet_range in H. revert v H.
  apply Forall_forall. unfold sextet_range.
  repeat (constructor; [reflexivity|]). constructor.
Qed.

Lemma sextets_of_text_chars l tail :
  Forall (fun v => (v < 64)%N) l ->
  sextets_of_text (string_of_chars (map char_of_sextet l) ++ tail)
  = (l ++ sextets_of_text tail)%list.
Proof.
  induction 1 as [|v l Hv _ IH]; [reflexivity|].
  cbn [map string_of_chars fold_right append sextets_of_text].
  rewrite (char_of_sextet_not_pad v Hv), (unbase64_char_of_sextet v Hv).
  fold (string_of_chars (map char_of_sextet l)). now rewrite IH.
Qed.

(* Division and remainder by constants, for [lia]. *)
Ltac Zify.zify_post_hook ::= Z.to_euclidean_division_equations.

Ltac byte_bounds :=
  repeat match goal with
    | a : ascii |- _ =>
        lazymatch goal with
        | _ : (N_of_ascii a < 256)%N |- _ => fail
        | _ => pose proof (N_ascii_bounded a)
        end
    end.

Lemma sextets_of_bytes_bounded bs :
  Forall (fun v => (v < 64)%N) (sextets_of_bytes bs).
Proof.
  induction bs as [|a|a b|a b c rest IH] using triples_ind;
    cbn [sextets_of_bytes]; cbv zeta; byte_bounds;
    repeat (constructor; [lia|]); auto.
Qed.

Lemma byte_eq n a : n = N_of_ascii a -> byte n = a.
Proof.
  intros ->. unfold byte. rewrite N.mod_small by apply N_ascii_bounded.
  apply ascii_N_embedding.
Qed.

Lemma bytes_of_sextets_of_bytes bs :
  bytes_of_sextets (sextets_of_bytes bs) = bs.
Proof.
  induction bs as [|a|a b|a b c rest IH] using triples_ind;
    cbn [sextets_of_bytes bytes_of_sextets]; cbv zeta; byte_bounds;
    try rewrite IH;
    repeat f_equal; solve [reflexivity | apply byte_eq; lia].
Qed.

(** Decoding what [encode] wrote gives the bytes back, also when characters
    that are skipped follow it. *)
Lemma decode_encode_append bs tail :
  sextets_of_text tail = [] -> decode (encode bs ++ tail) = bs.
Proof.
  intro H. unfold decode, encode.
  rewrite sextets_of_text_chars by apply sextets_of_bytes_bounded.
  rewrite H, app_nil_r. apply bytes_of_sextets_of_bytes.
Qed.

Lemma append_empty s : s ++ "" = s.
Proof. induction s as [|c s IH]; simpl; [reflexivity | now rewrite IH]. Qed.

Lemma decode_encode bs : decode (encode bs) = bs.
Proof.
  rewrite <- (append_empty (encode bs)). now apply decode_encode_append.
Qed.

Lemma all_url_chars_append a b :
  all_url_chars (a ++ b) = all_url_chars a && all_url_chars b.
Proof.
  induction a as [|c a IH]; simpl; [reflexivity|].
  now rewrite IH, andb_assoc.
Qed.

End Base64UrlFacts.

Module JSONFacts.
Import JSON.

Lemma append_assoc (a b c : string) : (a ++ b) ++ c = a ++ (b ++ c).
Proof. induction a as [|x a IH]; simpl; [reflexivity | now rewrite IH]. Qed.

Lemma string_items_quote_char c tail :
  string_items (quote_char c ++ tail) = push (item_of c) (string_items tail).
Proof. destruct c as [[] [] [] [] [] [] [] []]; reflexivity. Qed.

Lemma bytes_of_items_item_of c l :
  bytes_of_items (item_of c :: l) = String c (bytes_of_items l).
Proof. destruct c as [[] [] [] [] [] [] [] []]; reflexivity. Qed.

Lemma bytes_of_items_of s : bytes_of_items (items_of s) = s.
Proof.
  induction s as [|c s IH]; [reflexivity|].
  cbn [items_of]. rewrite bytes_of_items_item_of. now rewrite IH.
Qed.

Lemma string_items_quote_body s rest :
  string_items (quote_body s ++ String dquote rest) = Some (items_of s, rest).
Proof.
  induction s as [|c s IH]; [reflexivity|].
  cbn [quote_body items_of]. rewrite append_assoc, string_items_quote_char.
  now rewrite IH.
Qed.

(** A quoted string is read back as it was. *)
Lemma parse_string_quote_body s rest :
  parse_string (quote_body s ++ String dquote rest) = Some (s, rest).
Proof.
  unfold parse_string. rewrite string_items_quote_body.
  now rewrite bytes_of_items_of.
Qed.

Lemma quote_append s rest :
  quote s ++ rest = String dquote (quote_body s ++ String dquote rest).
Proof. unfold quote. simpl. now rewrite append_assoc. Qed.

Lemma parse_value_quote fuel s rest :
  parse_value (S fuel) (quote s ++ rest) = Some (JString s, rest).
Proof.
  rewrite quote_append. cbn -[parse_string].
  now rewrite parse_string_quote_body.
Qed.

Lemma parse_members_equation fuel s :
  parse_members (S fuel) s =
  match skip_ws s with
  | String q rest =>
      if (code q =? 34)%N then
        match parse_string rest with
        | None => None
        | Some (key, rest1) =>
            match skip_ws rest1 with
            | String colon rest2 =>
                if (code colon =? 58)%N then
                  match parse_value fuel rest2 with
                  | None => None
                  | Some (v, rest3) =>
                      match skip_ws rest3 with
                      | String d rest4 =>
                          if (code d =? 125)%N
                          then Some ([(key, v)], rest4)
                          else if (code d =? 44)%N then
                            match parse_members fuel rest4 with
                            | Some (members, rest5) =>
                                Some ((key, v) :: members, rest5)
                            | None => None
                            end
                          else None
                      | EmptyString => None
                      end
                  end
                else None
            | EmptyString => None
            end
        end
      else None
  | EmptyString => None
  end.
Proof. reflexivity. Qed.

Lemma skip_ws_stop c rest :
  is_ws c = false -> skip_ws (String c rest) = String c rest.
Proof. intro H. simpl. now rewrite H. Qed.

(* One member, read up to the text after its value. *)
Ltac read_member :=
  rewrite parse_members_equation, quote_append;
  rewrite skip_ws_stop by reflexivity;
  change (code dquote =? 34)%N with true; cbv beta iota;
  rewrite parse_string_quote_body; cbn [append];
  rewrite skip_ws_stop by reflexivity;
  change (code ":" =? 58)%N with true; cbv beta iota;
  rewrite parse_value_quote; cbn [append];
  rewrite skip_ws_stop by reflexivity.

Lemma parse_members_last fuel k v rest :
  parse_members (S (S fuel)) (quote k ++ ":" ++ quote v ++ "}" ++ rest)
  = Some ([(k, JString v)], rest).
Proof. read_member. reflexivity. Qed.

Lemma parse_members_more fuel k v tail members rest :
  parse_members (S fuel) tail = Some (members, rest) ->
  parse_members (S (S fuel)) (quote k ++ ":" ++ quote v ++ "," ++ tail)
  = Some ((k, JString v) :: members, rest).
Proof.
  intro H. read_member.
  change (code "," =? 125)%N with false. change (code "," =? 44)%N with true.
  cbv beta iota. now rewrite H.
Qed.

Lemma parse_value_object fuel k tail members rest :
  parse_members fuel (quote k ++ tail) = Some (members, rest) ->
  parse_value (S fuel) ("{" ++ quote k ++ tail) = Some (JObject members, rest).
Proof.
  intro H.
  change (parse_value (S fuel) ("{" ++ quote k ++ tail))
    with (match skip_ws (quote k ++ tail) with
          | String d rest' =>
              if (code d =? 125)%N then Some (JObject [], rest')
              else match parse_members fuel (quote k ++ tail) with
                   | Some (members, rest'') => Some (JObject members, rest'')
                   | None => None
                   end
          | EmptyString => None
          end).
  rewrite H, quote_append. rewrite skip_ws_stop by reflexivity.
  reflexivity.
Qed.

(** An object of two strings, as [stringify] writes it, is read back. *)
Lemma parse_stringify_two_strings k1 v1 k2 v2 :
  parse (stringify (JObject [(k1, JString v1); (k2, JString v2)]))
  = Some (JObject [(k1, JString v1); (k2, JString v2)]).
Proof.
  unfold parse.
  cbn [stringify map join].
  set (text := "{" ++ _).
  assert (fuel : exists n, 2 * String.length text + 2 = S (S (S (S n)))).
  { exists (2 * String.length text - 2). subst text.
    cbn [append String.length]. lia. }
  destruct fuel as [n ->]. subst text.
  rewrite !append_assoc.
  rewrite (parse_value_object _ _ _ [(k1, JString v1); (k2, JString v2)] "").
  - reflexivity.
  - apply parse_members_more.
    change "}" with ("}" ++ ""). apply parse_members_last.
Qed.

End JSONFacts.

Module OrderFacts.

Lemma ascii_compare_refl a : Ascii.compare a a = Eq.
Proof. apply N.compare_refl. Qed.

Lemma string_compare_refl s : String.compare s s = Eq.
Proof.
  induction s as [|a s IH]; simpl; [reflexivity|].
  now rewrite ascii_compare_refl.
Qed.

Lemma string_compare_lt_trans a b c :
  String.compare a b = Lt -> String.compare b c = Lt ->
  String.compare a c = Lt.
Proof.
  revert b c. induction a as [|x a IH]; intros [|y b] [|z c]; simpl;
    try congruence.
  unfold Ascii.compare.
  destruct (N.compare_spec (N_of_ascii x) (N_of_ascii y)) as [E1|L1|G1];
    destruct (N.compare_spec (N_of_ascii y) (N_of_ascii z)) as [E2|L2|G2];
    try congruence; intros H1 H2.
  - rewrite E1, E2, N.compare_refl. eauto.
  - rewrite E1. now apply N.compare_lt_iff in L2 as ->.
  - rewrite <- E2. now apply N.compare_lt_iff in L1 as ->.
  - assert (L : (N_of_ascii x < N_of_ascii z)%N) by lia.
    now apply N.compare_lt_iff in L as ->.
Qed.

Import drizzle.

Lemma compare_sort_refl v : compare_sort v v = Eq.
Proof.
  destruct v; simpl; auto using Z.compare_refl, string_compare_refl.
Qed.

Lemma compare_sort_antisym a b :
  compare_sort b a = CompOpp (compare_sort a b).
Proof.
  destruct a, b; simpl; auto using Z.compare_antisym, String.compare_antisym.
Qed.

Lemma compare_sort_eq a b : compare_sort a b = Eq -> a = b.
Proof.
  destruct a, b; simpl; try congruence; intro H.
  - apply Z.compare_eq in H. congruence.
  - apply String.compare_eq_iff in H. congruence.
Qed.

Lemma compare_sort_lt_trans a b c :
  compare_sort a b = Lt -> compare_sort b c = Lt -> compare_sort a c = Lt.
Proof.
  destruct a, b, c; simpl; try congruence.
  - rewrite !Z.compare_lt_iff. lia.
  - apply string_compare_lt_trans.
Qed.

Section Rows.
Context {R C : Type}.
Variable get : R -> C -> Value.

Lemma compare_by_antisym o a b :
  compare_by get o b a = CompOpp (compare_by get o a b).
Proof. destruct o; simpl; apply compare_sort_antisym. Qed.

Lemma compare_by_eq o a b c :
  compare_by get o a b = Eq -> compare_by get o a c = compare_by get o b c.
Proof.
  destruct o; simpl; intro H; apply compare_sort_eq in H; now rewrite H.
Qed.

Lemma compare_by_eq_r o a b c :
  compare_by get o b c = Eq -> compare_by get o a b = compare_by get o a c.
Proof.
  destruct o; simpl; intro H; apply compare_sort_eq in H; now rewrite H.
Qed.

Lemma compare_by_lt_trans o a b c :
  compare_by get o a b = Lt -> compare_by get o b c = Lt ->
  compare_by get o a c = Lt.
Proof.
  destruct o; simpl; intros H1 H2; eauto using compare_sort_lt_trans.
Qed.

Lemma compare_rows_antisym orderBy a b :
  compare_rows get orderBy b a = CompOpp (compare_rows get orderBy a b).
Proof.
  induction orderBy as [|o rest IH]; simpl; [reflexivity|].
  rewrite compare_by_antisym.
  destruct (compare_by get o a b); simpl; auto.
Qed.

Lemma compare_rows_eq orderBy a b c :
  compare_rows get orderBy a b = Eq ->
  compare_rows get orderBy a c = compare_rows get orderBy b c.
Proof.
  induction orderBy as [|o rest IH]; simpl; [reflexivity|].
  destruct (compare_by get o a b) eqn:E; try discriminate.
  intro H. rewrite (compare_by_eq _ _ _ c E).
  destruct (compare_by get o b c); auto.
Qed.

Lemma compare_rows_eq_r orderBy a b c :
  compare_rows get orderBy b c = Eq ->
  compare_rows get orderBy a b = compare_rows get orderBy a c.
Proof.
  induction orderBy as [|o rest IH]; simpl; [reflexivity|].
  destruct (compare_by get o b c) eqn:E; try discriminate.
  intro H. rewrite (compare_by_eq_r _ a _ _ E).
  destruct (compare_by get o a c); auto.
Qed.

Lemma compare_rows_lt_trans orderBy a b c :
  compare_rows get orderBy a b = Lt -> compare_rows get orderBy b c = Lt ->
  compare_rows get orderBy a c = Lt.
Proof.
  induction orderBy as [|o rest IH]; simpl; [discriminate|].
  destruct (compare_by get o a b) eqn:E1; try discriminate;
    destruct (compare_by get o b c) eqn:E2; try discriminate; intros H1 H2.
  - rewrite (compare_by_eq _ _ _ c E1), E2. auto.
  - now rewrite (compare_by_eq _ _ _ c E1), E2.
  - now rewrite <- (compare_by_eq_r _ a _ _ E2), E1.
  - now rewrite (compare_by_lt_trans _ _ _ _ E1 E2).
Qed.

(** [before] is a total preorder. *)
Lemma before_total orderBy a b :
  before get orderBy a b = false -> before get orderBy b a = true.
Proof.
  unfold before. rewrite (compare_rows_antisym orderBy a b).
  destruct (compare_rows get orderBy a b); simpl; congruence.
Qed.

Lemma before_trans orderBy a b c :
  before get orderBy a b = true -> before get orderBy b c = true ->
  before get orderBy a c = true.
Proof.
  unfold before.
  destruct (compare_rows get orderBy a b) eqn:E1; try discriminate;
    destruct (compare_rows get orderBy b c) eqn:E2; try discriminate;
    intros _ _.
  - now rewrite (compare_rows_eq _ _ _ c E1), E2.
  - now rewrite (compare_rows_eq _ _ _ c E1), E2.
  - now rewrite <- (compare_rows_eq_r _ a _ _ E2), E1.
  - now rewrite (compare_rows_lt_trans _ _ _ _ E1 E2).
Qed.

Lemma insert_Forall (P : R -> Prop) orderBy x l :
  P x -> Forall P l -> Forall P (insert get orderBy x l).
Proof.
  intros Hx. induction 1 as [|y l Hy Hl IH]; simpl.
  - auto.
  - destruct (before get orderBy x y); auto.
Qed.

Lemma insert_sorted orderBy x l :
  StronglySorted (Before get orderBy) l ->
  StronglySorted (Before get orderBy) (insert get orderBy x l).
Proof.
  induction 1 as [|y l Hl IH Hy]; simpl.
  - repeat constructor.
  - destruct (before get orderBy x y) eqn:E.
    + constructor; [now constructor|].
      constructor; [exact E|].
      eapply Forall_impl; [|exact Hy].
      intros z Hz. eapply before_trans; eauto.
    + constructor; [exact IH|].
      apply insert_Forall; [|exact Hy].
      now apply before_total.
Qed.

(** The rows [sort] returns are in order. *)
Lemma sort_sorted orderBy l :
  StronglySorted (Before get orderBy) (sort get orderBy l).
Proof.
  induction l as [|x l IH]; simpl; [constructor|].
  now apply insert_sorted.
Qed.

Lemma firstn_In n (l : list R) x : In x (firstn n l) -> In x l.
Proof.
  revert n. induction l as [|y l IH]; intros [|n]; simpl; try tauto.
  intros [H|H]; eauto.
Qed.

Lemma firstn_sorted (rel : R -> R -> Prop) n l :
  StronglySorted rel l -> StronglySorted rel (firstn n l).
Proof.
  intro H. revert n. induction H as [|x l Hl IH Hx]; intros [|n]; simpl;
    try constructor; auto.
  apply Forall_forall. intros y Hy.
  apply firstn_In in Hy. 
  eapply Forall_forall in Hx; eauto.
Qed.

Lemma findMany_sorted table limit orderBy where_ :
  StronglySorted (Before get orderBy)
    (findMany get table limit orderBy where_).
Proof. apply firstn_sorted, sort_sorted. Qed.

Lemma insert_In orderBy x l y :
  In y (insert get orderBy x l) <-> y = x \/ In y l.
Proof.
  induction l as [|z l IH]; simpl.
  - intuition.
  - destruct (before get orderBy x z); simpl; rewrite ?IH; intuition.
Qed.

Lemma sort_In orderBy l y : In y (sort get orderBy l) <-> In y l.
Proof.
  induction l as [|x l IH]; simpl; [tauto|].
  rewrite insert_In, IH. intuition.
Qed.

(** Every row [findMany] returns is a row of the table that the filter
    selects. *)
Lemma findMany_In table limit orderBy where_ row :
  In row (findMany get table limit orderBy where_) ->
  In row table /\ selects get table where_ row = true.
Proof.
  unfold findMany. intro H. apply firstn_In in H.
  apply sort_In in H. now apply filter_In in H.
Qed.

Lemma insert_length orderBy x l :
  List.length (insert get orderBy x l) = S (List.length l).
Proof.
  induction l as [|z l IH]; simpl; [reflexivity|].
  destruct (before get orderBy x z); simpl; auto.
Qed.

Lemma sort_length orderBy l :
  List.length (sort get orderBy l) = List.length l.
Proof.
  induction l as [|x l IH]; simpl; [reflexivity|].
  now rewrite insert_length, IH.
Qed.

End Rows.
End OrderFacts.

(** ** The filter of [upVoters] *)

Module FilterFacts.
Import drizzle.

Lemma holds_and3 a b : holds (and3 a b) = holds a && holds b.
Proof. destruct a as [[]|], b as [[]|]; reflexivity. Qed.

Lemma holds_or3 a b : holds (or3 a b) = holds a || holds b.
Proof. destruct a as [[]|], b as [[]|]; reflexivity. Qed.

Lemma is_Eq_string a b : is_Eq (String.compare a b) = String.eqb a b.
Proof.
  destruct (String.eqb_spec a b) as [->|N].
  - now rewrite OrderFacts.string_compare_refl.
  - destruct (String.compare a b) eqn:E; try reflexivity.
    now apply String.compare_eq_iff in E.
Qed.

Lemma is_Eq_Z a b : is_Eq (Z.compare a b) = Z.eqb a b.
Proof.
  destruct (Z.eqb_spec a b) as [->|N].
  - now rewrite Z.compare_refl.
  - destruct (Z.compare_spec a b); try reflexivity. contradiction.
Qed.

Lemma existsb_pointwise {A} (f g : A -> bool) l :
  (forall x, f x = g x) -> existsb f l = existsb g l.
Proof. intro H. induction l as [|x l IH]; simpl; now rewrite ?H, ?IH. Qed.

Lemma holds_type_up_vote row :
  holds (test is_Eq (commentVotesTable.get row commentVotesTable.type)
           (text "up_vote"))
  = UpVotersSpec.is_up_vote (CommentVote.type row).
Proof. simpl. now destruct (CommentVote.type row). Qed.

Lemma holds_commentId row parent :
  holds (test is_Eq (commentVotesTable.get row commentVotesTable.commentId)
           (text (Comment.id parent)))
  = String.eqb (CommentVote.commentId row) (Comment.id parent).
Proof.
  cbn [commentVotesTable.get test compare option_map].
  rewrite is_Eq_string. now destruct (String.eqb _ _).
Qed.

Lemma holds_createdAt (p : comparison -> bool) row t :
  holds (test p (commentVotesTable.get row commentVotesTable.createdAt)
           (timestamp t))
  = p (Z.compare (CommentVote.createdAt row) t).
Proof.
  cbn [commentVotesTable.get test compare option_map holds].
  now destruct (p _).
Qed.

Lemma holds_creatorId (p : comparison -> bool) row i :
  holds (test p (commentVotesTable.get row commentVotesTable.creatorId)
           (text i))
  = match CommentVote.creatorId row with
    | Some j => p (String.compare j i)
    | None => false
    end.
Proof.
  cbn [commentVotesTable.get].
  destruct (CommentVote.creatorId row);
    cbn [test compare option_map holds]; [|reflexivity].
  now destruct (p _).
Qed.

(** The existence check of the cursor's row. *)
Lemma holds_cursor_row table parent c row :
  holds
    (eval commentVotesTable.get table
       (and [ eq commentVotesTable.createdAt (timestamp (Cursor.createdAt c));
              eq commentVotesTable.creatorId (text (Cursor.creatorId c));
              eq commentVotesTable.commentId (text (Comment.id parent));
              eq commentVotesTable.type (text "up_vote") ]) row)
  = UpVotersSpec.isCursorRow parent c row.
Proof.
  cbn [eval fold_right]. rewrite !holds_and3.
  rewrite holds_createdAt, holds_creatorId, holds_commentId,
    holds_type_up_vote, is_Eq_Z.
  unfold UpVotersSpec.isCursorRow.
  destruct (CommentVote.creatorId row); rewrite ?is_Eq_string;
    cbn [holds]; btauto.
Qed.

End FilterFacts.

(** C2: with a decoded cursor, the rows the filter of [upVoters] selects are
    those of the base filter (the comment's up votes) for which the cursor's
    own row still exists among the comment's up votes and whose key lies
    strictly beyond the cursor: a larger (createdAt, creatorId) when the
    traversal is inversed, a smaller one when it is forward. *)
Theorem where_with_cursor (parent : Comment.t) (c : Cursor.t)
    (isInversed : bool) (table : list CommentVote.t) (row : CommentVote.t) :
  drizzle.selects commentVotesTable.get table
    (UpVoters.where_ parent (Some c) isInversed) row
  = UpVotersSpec.cursorFilter parent c isInversed table row.
Proof.
  unfold drizzle.selects, UpVotersSpec.cursorFilter, UpVotersSpec.baseFilter,
    UpVotersSpec.cursorRowExists, UpVotersSpec.keysetRange.
  destruct isInversed; cbn [UpVoters.where_ drizzle.eval fold_right];
    repeat (rewrite FilterFacts.holds_and3 || rewrite FilterFacts.holds_or3);
    rewrite !FilterFacts.holds_createdAt, !FilterFacts.holds_creatorId,
      FilterFacts.holds_commentId, FilterFacts.holds_type_up_vote,
      FilterFacts.is_Eq_Z;
    cbn [drizzle.holds];
    rewrite (FilterFacts.existsb_pointwise _
               (UpVotersSpec.isCursorRow parent c))
      by (intro r; exact (FilterFacts.holds_cursor_row table parent c r));
    unfold UpVotersSpec.string_gtb, UpVotersSpec.string_ltb, Z.gtb, Z.ltb,
      drizzle.is_Gt, drizzle.is_Lt;
    destruct (CommentVote.creatorId row); btauto.
Qed.

(** ** The order of the page *)

Module PageFacts.
Import UpVotersSpec.

Lemma before_ordered client isInversed a b :
  drizzle.Before commentVotesTable.get (UpVoters.orderBy isInversed) a b ->
  ordered isInversed (UpVoters.withCreator client a)
    (UpVoters.withCreator client b).
Proof.
  unfold drizzle.Before, drizzle.before, ordered, descending, ascending.
  destruct isInversed;
    cbn [UpVoters.orderBy drizzle.compare_rows drizzle.compare_by
           commentVotesTable.get UpVoters.withCreator
           Vote.createdAt Vote.creatorId drizzle.compare_sort].
  - destruct (Z.compare_spec (CommentVote.createdAt a)
                (CommentVote.createdAt b)) as [E|L|G];
      [|now left|discriminate].
    intro H. right. split; [exact E|].
    destruct (CommentVote.creatorId a), (CommentVote.creatorId b);
      cbn [drizzle.compare_sort creatorLe] in *; try discriminate; auto.
    unfold String.leb. now destruct (String.compare s s0).
  - destruct (Z.compare_spec (CommentVote.createdAt b)
                (CommentVote.createdAt a)) as [E|L|G];
      [|now left|discriminate].
    intro H. right. split; [exact E|].
    destruct (CommentVote.creatorId a), (CommentVote.creatorId b);
      cbn [drizzle.compare_sort creatorLe] in *; try discriminate; auto.
    unfold String.leb. now destruct (String.compare s0 s).
Qed.

Lemma sorted_map {A B} (ra : A -> A -> Prop) (rb : B -> B -> Prop)
    (f : A -> B) l :
  (forall a b, ra a b -> rb (f a) (f b)) ->
  StronglySorted ra l -> StronglySorted rb (map f l).
Proof.
  intros H. induction 1 as [|x l Hl IH Hx]; simpl; constructor; auto.
  apply Forall_map. eapply Forall_impl; [|exact Hx]. auto.
Qed.

Lemma hasCreator_keys vote v :
  UpVoters.hasCreator vote = Some v ->
  Vote.createdAt v = Vote.createdAt vote
  /\ Vote.creatorId v = Vote.creatorId vote
  /\ Vote.creator vote = Some (Vote.creator v).
Proof.
  unfold UpVoters.hasCreator. destruct (Vote.creator vote); [|discriminate].
  intros [= <-]. auto.
Qed.

Lemma ordered_hasCreator isInversed a b a' b' :
  UpVoters.hasCreator a = Some a' -> UpVoters.hasCreator b = Some b' ->
  ordered isInversed a b -> ordered isInversed a' b'.
Proof.
  intros Ha Hb.
  apply hasCreator_keys in Ha as (Ha1 & Ha2 & _).
  apply hasCreator_keys in Hb as (Hb1 & Hb2 & _).
  unfold ordered, descending, ascending.
  now rewrite Ha1, Ha2, Hb1, Hb2.
Qed.

Lemma filterCreators_In votes v :
  In v (UpVoters.filterCreators votes) ->
  exists vote, In vote votes /\ UpVoters.hasCreator vote = Some v.
Proof.
  induction votes as [|vote votes IH]; simpl; [tauto|].
  destruct (UpVoters.hasCreator vote) as [v'|] eqn:E.
  - intros [<-|H]; [now exists vote; auto|].
    destruct (IH H) as (w & Hw & Ew). exists w. auto.
  - intro H. destruct (IH H) as (w & Hw & Ew). exists w. auto.
Qed.

Lemma filterCreators_sorted isInversed votes :
  StronglySorted (ordered isInversed) votes ->
  StronglySorted (ordered isInversed) (UpVoters.filterCreators votes).
Proof.
  induction 1 as [|vote votes Hs IH Hall]; simpl; [constructor|].
  destruct (UpVoters.hasCreator vote) as [v|] eqn:E; [|exact IH].
  constructor; [exact IH|].
  apply Forall_forall. intros w Hw.
  apply filterCreators_In in Hw as (w0 & Hin & Ew).
  eapply ordered_hasCreator; eauto.
  eapply Forall_forall in Hall; eauto.
Qed.

Lemma filterCreators_creators votes :
  map UpVoters.createNode (UpVoters.filterCreators votes) = creators votes.
Proof.
  induction votes as [|vote votes IH]; simpl; [reflexivity|].
  unfold UpVoters.hasCreator.
  destruct (Vote.creator vote); simpl; now rewrite ?IH.
Qed.

(** The rows fetched are in the order asked for. *)
Lemma fetch_sorted client parent parsedArgs :
  StronglySorted (ordered (isInversed parsedArgs))
    (UpVoters.fetch client parent parsedArgs).
Proof.
  unfold UpVoters.fetch.
  eapply sorted_map; [apply before_ordered|].
  apply OrderFacts.findMany_sorted.
Qed.

End PageFacts.

(** C7: the rows are fetched in descending order of (createdAt, creatorId)
    when the traversal is forward and in ascending order when it is
    inversed, and so are the votes whose creators make the page; in
    particular for a forward page without a cursor. *)
Theorem fetch_order {decl : Declarations} (parent : Comment.t)
    (client : DrizzleClient) (parsedArgs : ConnectionArguments Cursor.t) :
  UpVoters.orderBy (isInversed parsedArgs)
  = (if isInversed parsedArgs
     then [drizzle.asc commentVotesTable.createdAt;
           drizzle.asc commentVotesTable.creatorId]
     else [drizzle.desc commentVotesTable.createdAt;
           drizzle.desc commentVotesTable.creatorId])
  /\ StronglySorted (UpVotersSpec.ordered (isInversed parsedArgs))
       (UpVoters.fetch client parent parsedArgs)
  /\ StronglySorted (UpVotersSpec.ordered (isInversed parsedArgs))
       (UpVoters.filterCreators (UpVoters.fetch client parent parsedArgs))
  /\ (forall args conn,
        UpVoters.upVotersArgumentsSchema_safeParse args = Zod.success parsedArgs ->
        UpVoters.upVoters parent args client = Ok conn ->
        edges conn
        = map (fun vote => {| Edge.cursor := UpVoters.createCursor vote;
                              Edge.node := Vote.creator vote |})
            (UpVoters.filterCreators (UpVoters.fetch client parent parsedArgs)))
  /\ (cursor parsedArgs = None -> isInversed parsedArgs = false ->
      StronglySorted UpVotersSpec.descending
        (UpVoters.filterCreators (UpVoters.fetch client parent parsedArgs))).
Proof.
  assert (S1 := PageFacts.fetch_sorted client parent parsedArgs).
  assert (S2 := PageFacts.filterCreators_sorted _ _ S1).
  repeat split; auto.
  - intros args conn Hp. unfold UpVoters.upVoters. rewrite Hp.
    destruct (_ && _); [discriminate|].
    now intros [= <-].
  - intros _ Hi. now rewrite Hi in S2.
Qed.

(** ** What the resolver returns *)

(** C4: the resolver throws "arguments associated resources not found"
    exactly when the arguments were accepted with a cursor and no row was
    fetched; when they were accepted without a cursor and no row was fetched
    it returns a connection without edges. *)
Theorem not_found_iff_cursor_and_no_row {decl : Declarations}
    (parent : Comment.t) (args : Args) (client : DrizzleClient) :
  ((exists e, UpVoters.upVoters parent args client = Err e
              /\ code (extensions e) = arguments_associated_resources_not_found)
   <->
   (exists parsedArgs c,
       UpVoters.upVotersArgumentsSchema_safeParse args = Zod.success parsedArgs
       /\ cursor parsedArgs = Some c
       /\ UpVoters.fetch client parent parsedArgs = []))
  /\ (forall parsedArgs,
        UpVoters.upVotersArgumentsSchema_safeParse args = Zod.success parsedArgs ->
        cursor parsedArgs = None ->
        UpVoters.fetch client parent parsedArgs = [] ->
        UpVoters.upVoters parent args client = Ok {| edges := [] |}).
Proof.
  unfold UpVoters.upVoters. split; [split|].
  - intros (e & He & Hc).
    destruct (UpVoters.upVotersArgumentsSchema_safeParse args)
      as [parsedArgs|error_issues].
    + destruct (cursor parsedArgs) as [c|] eqn:Ec; [|discriminate].
      destruct (UpVoters.fetch client parent parsedArgs) eqn:Ef;
        [|discriminate].
      exists parsedArgs, c. auto.
    + injection He as <-. discriminate.
  - intros (parsedArgs & c & -> & Ec & Ef). rewrite Ec, Ef.
    eexists. split; reflexivity.
  - intros parsedArgs -> Ec Ef. now rewrite Ec, Ef.
Qed.

(** C9: when the resolver does not throw, the nodes of the connection it
    returns are the creators of the fetched votes that have one, in the order
    of the votes: a vote whose creator is null gives no node, and the
    resolver throws nothing and reports nothing for it. *)
Theorem votes_without_creator_dropped {decl : Declarations}
    (parent : Comment.t) (args : Args) (client : DrizzleClient)
    (parsedArgs : ConnectionArguments Cursor.t) :
  UpVoters.upVotersArgumentsSchema_safeParse args = Zod.success parsedArgs ->
  (cursor parsedArgs = None
   \/ UpVoters.fetch client parent parsedArgs <> []) ->
  exists conn,
    UpVoters.upVoters parent args client = Ok conn
    /\ map Edge.node (edges conn)
       = UpVotersSpec.creators (UpVoters.fetch client parent parsedArgs)
    /\ Forall (fun edge =>
                 exists vote,
                   In vote (UpVoters.fetch client parent parsedArgs)
                   /\ Vote.creator vote = Some (Edge.node edge))
         (edges conn).
Proof.
  intros Hp Hne. unfold UpVoters.upVoters. rewrite Hp.
  assert (E : UpVoters.isSome (cursor parsedArgs)
              && UpVoters.isEmpty (UpVoters.fetch client parent parsedArgs)
              = false).
  { destruct Hne as [->|Hne]; [reflexivity|].
    destruct (UpVoters.fetch client parent parsedArgs); [contradiction|].
    apply andb_false_r. }
  rewrite E. eexists. split; [reflexivity|].
  cbn [transformToDefaultGraphQLConnection edges]. split.
  - rewrite map_map. cbn [Edge.node].
    apply PageFacts.filterCreators_creators.
  - apply Forall_map, Forall_forall. intros v Hv. cbn [Edge.node].
    apply PageFacts.filterCreators_In in Hv as (vote & Hin & Hc).
    exists vote. split; [exact Hin|].
    now apply PageFacts.hasCreator_keys in Hc.
Qed.

Lemma votes_without_creator_dropped_witness :
  exists conn,
    UpVoters.upVoters (decl := Example.declarations) Example.comment
      {| cursor := Some Example.firstCursor; isInversed := true; limit := 2 |}
Example.client = Ok conn
/\ map Edge.node (edges conn) = [Example.bob].
Proof.
  destruct (votes_without_creator_dropped (decl := Example.declarations)
              Example.comment
              {| cursor := Some Example.firstCursor;
                 isInversed := true; limit := 2 |}
              Example.client
              {| cursor := Some {| Cursor.createdAt := 1704067200000;
                                   Cursor.creatorId := User.id Example.ada |};
                 isInversed := true; limit := 2 |})
    as (conn & H1 & H2 & _).
  - vm_compute. reflexivity.
  - right. vm_compute. discriminate.
  - exists conn. split; [exact H1|]. rewrite H2. vm_compute. reflexivity.
Defined.

(** C10: the filter built with a cursor has no condition on the voter being
    there, which the filter built without a cursor has; so a vote without
    creator can be fetched and count in the limit, to be dropped only after:
    on the example, a page of limit two after the first vote fetches two
    votes, one of them without creator, and has a single node, though two
    votes with a creator match the filter. *)
Theorem cursor_filter_admits_votes_without_creator :
  (forall parent c isInversed,
      (exists conditions,
          UpVoters.where_ parent (Some c) isInversed = drizzle.and conditions
          /\ ~ In (drizzle.ne commentVotesTable.creatorId drizzle.null)
                 conditions)
      /\ (exists conditions,
             UpVoters.where_ parent None isInversed = drizzle.and conditions
             /\ In (drizzle.ne commentVotesTable.creatorId drizzle.null)
                  conditions))
  /\ (exists parent client parsedArgs c,
         cursor parsedArgs = Some c
         /\ (exists vote,
                In vote (UpVoters.fetch client parent parsedArgs)
                /\ Vote.creatorId vote = None /\ Vote.creator vote = None)
         /\ List.length (UpVoters.fetch client parent parsedArgs)
            = limit parsedArgs
         /\ limit parsedArgs
            <= List.length
                 (UpVoters.filterCreators
                    (map (UpVoters.withCreator client)
                       (filter
                          (drizzle.selects commentVotesTable.get
                             (commentVotes client)
                             (UpVoters.where_ parent (cursor parsedArgs)
                                (isInversed parsedArgs)))
                          (commentVotes client))))
         /\ (forall (decl : Declarations) (args : Args),
                UpVoters.upVotersArgumentsSchema_safeParse args
                = Zod.success parsedArgs ->
                exists conn,
                  UpVoters.upVoters parent args client = Ok conn
                  /\ List.length (edges conn) < limit parsedArgs)).
Proof.
  split.
  - intros parent c isInversed. split; destruct isInversed;
      cbn [UpVoters.where_]; eexists; (split; [reflexivity|]);
      cbn [In]; try tauto;
      intros [H|[H|[H|[H|[]]]]]; discriminate.
  - exists Example.comment, Example.client,
      {| cursor := Some {| Cursor.createdAt := 1704067200000;
                           Cursor.creatorId := User.id Example.ada |};
         isInversed := true; limit := 2 |}.
    eexists.
    split; [reflexivity|].
    split.
    { exists {| Vote.createdAt := 1704067201000;
                Vote.creatorId := None; Vote.creator := None |}.
      split; [vm_compute; auto|auto]. }
    split; [vm_compute; reflexivity|].
    split; [vm_compute; lia|].
    intros decl args Hp. unfold UpVoters.upVoters. rewrite Hp.
    eexists. split; [vm_compute; reflexivity|].
    vm_compute. lia.
Qed.

(** The condition [ne(creatorId, null)] of the filter without cursor compares
    with null, which in SQL is never true: that filter selects no row. *)
Lemma where_without_cursor_selects_nothing (parent : Comment.t)
    (isInversed : bool) (table : list CommentVote.t) (row : CommentVote.t) :
  drizzle.selects commentVotesTable.get table
    (UpVoters.where_ parent None isInversed) row = false.
Proof.
  unfold drizzle.selects.
  destruct isInversed; cbn [UpVoters.where_ drizzle.eval fold_right];
    rewrite FilterFacts.holds_and3;
    cbn [commentVotesTable.get]; now destruct (CommentVote.creatorId row).
Qed.

(** ** The cursor *)

Module CursorFacts.


(** A schema of [createdAt] that is [z.date()] lets no value through the
    cursor schema. *)
Lemma cursorSchema_parse_date {decl : Declarations} v :
  (forall a, createdAtSchema a = Zod.date a) ->
  UpVoters.cursorSchema_parse v = None.
Proof.
  intro Hdate. unfold UpVoters.cursorSchema_parse.
  destruct v as [| | | |elements|members]; try reflexivity.
  destruct (JSON.property "createdAt" members) as [a|]; [|reflexivity].
  destruct (JSON.property "creatorId" members) as [b|]; [|reflexivity].
  now rewrite Hdate.
Qed.

Lemma decodeCursor_date {decl : Declarations} text :
  (forall a, createdAtSchema a = Zod.date a) ->
  UpVoters.decodeCursor text = None.
Proof.
  intro Hdate. unfold UpVoters.decodeCursor.
  destruct (JSON.parse (Base64Url.decode text)); [|reflexivity].
  now apply cursorSchema_parse_date.
Qed.

(** A cursor that does not decode is answered with "Not a valid cursor." *)
Lemma not_decoded {decl : Declarations} parent args client arg text :
  defaultGraphQLConnectionArguments args = Zod.success arg ->
  cursor arg = Some text ->
  UpVoters.decodeCursor text = None ->
  UpVoters.upVoters parent args client
  = Err {| extensions :=
             {| code := invalid_arguments;
                issues :=
                  [ {| argumentPath :=
                         [if isInversed arg then "before" else "after"];
                       message := Some "Not a valid cursor." |} ] |};
           errorMessage := "Invalid arguments provided." |}.
Proof.
  intros Ha Hc Hd.
  unfold UpVoters.upVoters, UpVoters.upVotersArgumentsSchema_safeParse,
    UpVoters.transformCursor.
  now rewrite Ha, Hc, Hd.
Qed.

End CursorFacts.

(** C5, which the code does not meet.  [createCursor] writes [createdAt]
    through [JSON.stringify], as the text of [toISOString], and the cursor
    schema reads it with the schema of the column, [z.date()], which accepts
    no text.  The bytes do come back: base64url-decoding and [JSON.parse]
    give the object that was written.  But the schema refuses it, so the
    cursor made for a vote, whatever the vote, does not decode to its pair,
    and a call that passes it is answered with "Not a valid cursor." *)
Theorem created_cursor_refused {decl : Declarations} {U : Type}
    (vote : Vote.t U) :
  (forall a, createdAtSchema a = Zod.date a) ->
  (forall creatorId,
      Vote.creatorId vote = Some creatorId ->
      JSON.parse (Base64Url.decode (UpVoters.createCursor vote))
      = Some (JSON.JObject
                [ ("createdAt",
                   JSON.JString (Date.toISOString (Vote.createdAt vote)));
                  ("creatorId", JSON.JString creatorId) ]))
  /\ UpVoters.decodeCursor (UpVoters.createCursor vote) = None
  /\ forall parent args client arg,
       defaultGraphQLConnectionArguments args = Zod.success arg ->
       cursor arg = Some (UpVoters.createCursor vote) ->
       UpVoters.upVoters parent args client
       = Err {| extensions :=
                  {| code := invalid_arguments;
                     issues :=
                       [ {| argumentPath :=
                              [if isInversed arg then "before" else "after"];
                            message := Some "Not a valid cursor." |} ] |};
                errorMessage := "Invalid arguments provided." |}.
Proof.
  intro Hdate. split; [|split].
  - intros creatorId Hc.
    unfold UpVoters.createCursor, UpVoters.cursorObject.
    rewrite Base64UrlFacts.decode_encode, Hc.
    apply JSONFacts.parse_stringify_two_strings.
  - now apply CursorFacts.decodeCursor_date.
  - intros parent args client arg Ha Hcur.
    apply (CursorFacts.not_decoded parent args client arg _ Ha Hcur).
    now apply CursorFacts.decodeCursor_date.
Qed.

Lemma created_cursor_refused_witness :
  UpVoters.decodeCursor (decl := Example.dateDeclarations)
    (UpVoters.createCursor
       {| Vote.createdAt := 1704067200000%Z;
          Vote.creatorId := Some (User.id Example.ada);
          Vote.creator := Example.ada |})
  = None.
Proof.
  apply (created_cursor_refused (decl := Example.dateDeclarations)
           {| Vote.createdAt := 1704067200000%Z;
              Vote.creatorId := Some (User.id Example.ada);
              Vote.creator := Example.ada |}).
  reflexivity.
Defined.



(** ** The [updateFund] mutation *)

Module FundFacts.
Import drizzle.

Lemma holds_eq_text a b :
  holds (test is_Eq (text a) (text b)) = String.eqb a b.
Proof.
  cbn [test compare option_map]. rewrite FilterFacts.is_Eq_string.
  now destruct (String.eqb a b).
Qed.

Lemma hd_error_filter {A} (p : A -> bool) l :
  hd_error (filter p l) = find p l.
Proof.
  induction l as [|x l IH]; simpl; [reflexivity|].
  now destruct (p x).
Qed.

Lemma filter_filter {A} (p q : A -> bool) l :
  filter p (filter q l) = filter (fun x => q x && p x) l.
Proof.
  induction l as [|x l IH]; simpl; [reflexivity|].
  destruct (q x); simpl; [destruct (p x)|]; now rewrite IH.
Qed.

Lemma find_pointwise {A} (p q : A -> bool) l :
  (forall x, p x = q x) -> find p l = find q l.
Proof.
  intro H. induction l as [|x l IH]; simpl; [reflexivity|].
  now rewrite H, IH.
Qed.

Lemma find_filter_cons {A} (p : A -> bool) l x :
  find p l = Some x -> exists rest, filter p l = x :: rest.
Proof.
  induction l as [|y l IH]; simpl; [discriminate|].
  destruct (p y); [intros [= ->]; eauto|auto].
Qed.

(** The membership the resolver reads is the caller's membership in the
    organization of the fund. *)
Lemma membership_read client fund currentUserId :
  hd_error
    (UpdateFund.organizationMembershipsWhereOrganization
       client fund currentUserId)
  = UpdateFundSpec.membership client (Fund.organizationId fund) currentUserId.
Proof.
  unfold UpdateFund.organizationMembershipsWhereOrganization,
    UpdateFundSpec.membership.
  rewrite filter_filter, hd_error_filter.
  apply find_pointwise. intro m. unfold selects.
  cbn [eval organizationMembershipsTable.get].
  now rewrite !holds_eq_text.
Qed.

Lemma selects_fund_id table id row :
  selects fundsTable.get table (eq fundsTable.id (text id)) row
  = String.eqb (Fund.id row) id.
Proof. unfold selects. cbn [eval fundsTable.get]. apply holds_eq_text. Qed.

Lemma existingFund_In client input fund :
  UpdateFund.existingFund client input = Some fund ->
  In fund (funds client)
  /\ Fund.id fund = MutationUpdateFundInput.id input.
Proof.
  unfold UpdateFund.existingFund, findFirst. intro H.
  apply find_some in H as [Hin Hs]. split; [exact Hin|].
  rewrite selects_fund_id in Hs. now apply String.eqb_eq.
Qed.

(** The name check passes when no name is given, and only then: with a
    name, the name query throws. *)
Lemma nameCheck_cases client fund input :
  UpdateFund.nameCheck client fund input
  = match MutationUpdateFundInput.name input with
    | Some _ => Err (drizzleError noFieldsSelected)
    | None => Ok tt
    end.
Proof.
  unfold UpdateFund.nameCheck.
  now destruct (MutationUpdateFundInput.name input).
Qed.

Lemma notAuthorized_false client currentUserId user fund :
  UpdateFund.notAuthorized user
    (hd_error (UpdateFund.organizationMembershipsWhereOrganization
                 client fund currentUserId)) = false
  <-> UpdateFundSpec.permitted client currentUserId user fund.
Proof.
  rewrite membership_read. unfold UpdateFund.notAuthorized,
    UpdateFundSpec.permitted.
  destruct (User.role user); cbn [is_administrator negb andb].
  - split; auto.
  - destruct (UpdateFundSpec.membership _ _ _) as [m|].
    + destruct (OrganizationMembership.role m) eqn:E;
        cbn [is_administrator negb].
      * split; eauto.
      * split; [discriminate|].
        intros [H|(m' & [= <-] & H)]; congruence.
    + split; [discriminate|].
      intros [H|(m' & H & _)]; discriminate.
Qed.

(** What the resolver does once the caller, the input and the fund are
    there. *)
Lemma updateFund_checks {decl : FundDeclarations} args uid client input
    user fund :
  mutationUpdateFundArgumentsSchema_safeParse args = Zod.success input ->
  UpdateFund.currentUser client uid = Some user ->
  UpdateFund.existingFund client input = Some fund ->
  UpdateFund.updateFund args (authenticatedClient uid) client
  = match MutationUpdateFundInput.name input with
    | Some _ => (Err (drizzleError noFieldsSelected), client)
    | None =>
        if UpdateFund.notAuthorized user
             (hd_error (UpdateFund.organizationMembershipsWhereOrganization
                          client fund uid))
        then (Err (graphQLError UpdateFund.unauthorizedError), client)
        else (Ok (UpdateFund.set input uid fund),
              UpdateFund.withFunds client
                (map (fun row =>
                        if String.eqb (Fund.id row)
                             (MutationUpdateFundInput.id input)
                        then UpdateFund.set input uid row else row)
                   (funds client)))
    end.
Proof.
  intros Hp Hu Hf. unfold UpdateFund.updateFund.
  rewrite Hp, Hu, Hf, nameCheck_cases.
  destruct (MutationUpdateFundInput.name input); [reflexivity|].
  destruct (UpdateFund.notAuthorized _ _); [reflexivity|].
  unfold update.
  unfold UpdateFund.existingFund, findFirst in Hf.
  apply find_filter_cons in Hf as [rest ->]. cbn [map].
  do 2 f_equal. apply map_ext. intro row.
  now rewrite selects_fund_id.
Qed.

End FundFacts.

(** C1, which the code does not meet.  A call whose [input.name] is the
    current name of the target fund does not pass the uniqueness check and
    does not succeed, whoever the caller: its name query selects no field,
    the query builder refuses it with "No fields selected" before any row is
    read, and the resolver throws that error, not one of its own; the fund is
    not updated. *)
Theorem own_name_throws {decl : FundDeclarations} (args : FundArgs)
    (uid : string) (client : DrizzleClient)
    (input : MutationUpdateFundInput.t) (user : User.t) (fund : Fund.t) :
  mutationUpdateFundArgumentsSchema_safeParse args = Zod.success input ->
  UpdateFund.currentUser client uid = Some user ->
  UpdateFund.existingFund client input = Some fund ->
  MutationUpdateFundInput.name input = Some (Fund.name fund) ->
  UpdateFund.existingFundWithName client fund (Fund.name fund)
  = Err drizzle.noFieldsSelected
  /\ UpdateFund.updateFund args (authenticatedClient uid) client
     = (Err (drizzleError drizzle.noFieldsSelected), client).
Proof.
  intros Hp Hu Hf Hn. split; [reflexivity|].
  now rewrite (FundFacts.updateFund_checks _ _ _ _ _ _ Hp Hu Hf), Hn.
Qed.

Lemma own_name_throws_witness :
  User.role Example.cyd = administrator
  /\ MutationUpdateFundInput.name Example.sameName
     = Some (Fund.name Example.general)
  /\ UpdateFund.updateFund (decl := Example.fundDeclarations) Example.sameName
       (authenticatedClient (User.id Example.cyd)) Example.fundClient
     = (Err (drizzleError drizzle.noFieldsSelected), Example.fundClient).
Proof.
  split; [reflexivity|]. split; [reflexivity|].
  apply (own_name_throws (decl := Example.fundDeclarations) Example.sameName
           (User.id Example.cyd) Example.fundClient Example.sameName
           Example.cyd Example.general);
    reflexivity.
Defined.

(** C3: a call reaches the authorization check when its caller and its fund
    are found and its name check has passed, which it does for a call that
    gives no name only.  For such a call the fund is updated and returned if
    and only if the caller is an administrator or their membership in the
    organization that owns the fund is an administrator's; otherwise the
    resolver throws "unauthorized action on arguments associated resources"
    on [input.id] and updates nothing. *)
Theorem authorization_check {decl : FundDeclarations} (args : FundArgs)
    (uid : string) (client : DrizzleClient)
    (input : MutationUpdateFundInput.t) (user : User.t) (fund : Fund.t) :
  mutationUpdateFundArgumentsSchema_safeParse args = Zod.success input ->
  UpdateFund.currentUser client uid = Some user ->
  UpdateFund.existingFund client input = Some fund ->
  UpdateFund.nameCheck client fund input = Ok tt ->
  MutationUpdateFundInput.name input = None
  /\ ((exists updated client',
          UpdateFund.updateFund args (authenticatedClient uid) client
          = (Ok updated, client'))
      <-> UpdateFundSpec.permitted client uid user fund)
  /\ (~ UpdateFundSpec.permitted client uid user fund ->
      UpdateFund.updateFund args (authenticatedClient uid) client
      = (Err (graphQLError
                {| extensions :=
                     {| code :=
                          unauthorized_action_on_arguments_associated_resources;
                        issues :=
                          [ {| argumentPath := ["input"; "id"];
                               message := None |} ] |};
                   errorMessage :=
                     "You are not authorized to perform this action on the resources associated to the provided arguments." |}),
         client)).
Proof.
  intros Hp Hu Hf Hn.
  rewrite (FundFacts.updateFund_checks _ _ _ _ _ _ Hp Hu Hf).
  rewrite FundFacts.nameCheck_cases in Hn.
  destruct (MutationUpdateFundInput.name input); [discriminate|].
  split; [reflexivity|].
  pose proof (FundFacts.notAuthorized_false client uid user fund) as Hperm.
  destruct (UpdateFund.notAuthorized _ _).
  - split.
    + split; [intros (u & c & H); discriminate|].
      intro H. apply Hperm in H. discriminate.
    + reflexivity.
  - split.
    + split; [intros _; now apply Hperm|eauto].
    + intro H. destruct H. now apply Hperm.
Qed.

Lemma authorization_check_witness :
  (exists updated client',
      UpdateFund.updateFund (decl := Example.fundDeclarations)
        Example.onlyTaxDeductible (authenticatedClient (User.id Example.cyd))
        Example.fundClient = (Ok updated, client'))
  /\ UpdateFund.updateFund (decl := Example.fundDeclarations)
       Example.onlyTaxDeductible (authenticatedClient (User.id Example.bob))
       Example.fundClient
     = (Err (graphQLError UpdateFund.unauthorizedError), Example.fundClient).
Proof.
  split.
  - apply (authorization_check (decl := Example.fundDeclarations)
             Example.onlyTaxDeductible (User.id Example.cyd)
             Example.fundClient Example.onlyTaxDeductible Example.cyd
             Example.general); try reflexivity.
    now left.
  - apply (authorization_check (decl := Example.fundDeclarations)
             Example.onlyTaxDeductible (User.id Example.bob)
             Example.fundClient Example.onlyTaxDeductible Example.bob
             Example.general); try reflexivity.
    intros [H|(m & Hm & Hr)]; [discriminate|].
    vm_compute in Hm. injection Hm as <-. discriminate.
Defined.

(** C8: a call that succeeds returns the target fund with the fields given
    in the input set, the other of [name] and [isTaxDeductible] as it was when
    only one is given, [updaterId] set to the caller and [id] and
    [organizationId] as they were; in the table the funds of another id are
    as they were, and the other tables are not changed. *)
Theorem update_sets_given_fields {decl : FundDeclarations} (args : FundArgs)
    (currentClient : CurrentClient) (client client' : DrizzleClient)
    (updated : Fund.t) :
  UpdateFund.updateFund args currentClient client = (Ok updated, client') ->
  exists uid input fund,
    currentClient = authenticatedClient uid
    /\ mutationUpdateFundArgumentsSchema_safeParse args = Zod.success input
    /\ UpdateFund.existingFund client input = Some fund
    /\ Fund.id updated = Fund.id fund
    /\ Fund.organizationId updated = Fund.organizationId fund
    /\ Fund.updaterId updated = Some uid
    /\ Fund.name updated
       = match MutationUpdateFundInput.name input with
         | Some name => name
         | None => Fund.name fund
         end
    /\ Fund.isTaxDeductible updated
       = match MutationUpdateFundInput.isTaxDeductible input with
         | Some b => b
         | None => Fund.isTaxDeductible fund
         end
    /\ Forall2 (fun old new =>
                  if String.eqb (Fund.id old) (MutationUpdateFundInput.id input)
                  then new = UpdateFund.set input uid old
                  else new = old)
         (funds client) (funds client')
    /\ commentVotes client' = commentVotes client
    /\ organizationMemberships client' = organizationMemberships client
    /\ users client' = users client.
Proof.
  intro H. destruct currentClient as [|uid]; [discriminate|].
  destruct (mutationUpdateFundArgumentsSchema_safeParse args)
    as [input|error_issues] eqn:Hp;
    [|unfold UpdateFund.updateFund in H; rewrite Hp in H; discriminate].
  destruct (UpdateFund.currentUser client uid) as [user|] eqn:Hu;
    [|unfold UpdateFund.updateFund in H; rewrite Hp, Hu in H; discriminate].
  destruct (UpdateFund.existingFund client input) as [fund|] eqn:Hf;
    [|unfold UpdateFund.updateFund in H; rewrite Hp, Hu, Hf in H;
      discriminate].
  rewrite (FundFacts.updateFund_checks _ _ _ _ _ _ Hp Hu Hf) in H.
  destruct (MutationUpdateFundInput.name input) eqn:Hn; [discriminate|].
  destruct (UpdateFund.notAuthorized _ _); [discriminate|].
  injection H as <- <-.
  exists uid, input, fund. repeat split; auto.
  cbn [UpdateFund.withFunds funds].
  induction (funds client) as [|old l IH]; cbn [map]; constructor; auto.
  now destruct (String.eqb _ _).
Qed.

Lemma update_sets_given_fields_witness :
  let updated :=
    UpdateFund.set Example.onlyTaxDeductible (User.id Example.cyd)
Example.general in
let client' :=
UpdateFund.withFunds Example.fundClient [updated; Example.building] in
UpdateFund.updateFund (decl := Example.fundDeclarations)
Example.onlyTaxDeductible (authenticatedClient (User.id Example.cyd))
Example.fundClient = (Ok updated, client')
/\ Fund.name updated = Fund.name Example.general
/\ Fund.updaterId updated = Some (User.id Example.cyd)
/\ funds client' = [updated; Example.building].
Proof.
  intros updated client'.
  assert (call :
    UpdateFund.updateFund (decl := Example.fundDeclarations)
      Example.onlyTaxDeductible (authenticatedClient (User.id Example.cyd))
      Example.fundClient = (Ok updated, client')) by reflexivity.
  split; [exact call|].
  destruct (update_sets_given_fields (decl := Example.fundDeclarations)
              _ _ _ _ _ call)
    as (uid & input & fund & Hc & Hp & Hf & _ & _ & Hu & Hn & _ & Hfunds & _).
  injection Hc as <-. injection Hp as <-.
  injection Hf as <-.
  split; [exact Hn|]. split; [exact Hu|reflexivity].
Defined.

(** ** More on the page of up-voters *)

Module PageMoreFacts.

(** The rows the filter with a cursor selects. *)
Lemma selects_cursor_filter parent c isInversed table row :
  drizzle.selects commentVotesTable.get table
    (UpVoters.where_ parent (Some c) isInversed) row
  = UpVotersSpec.cursorFilter parent c isInversed table row.
Proof.
  unfold drizzle.selects, UpVotersSpec.cursorFilter, UpVotersSpec.baseFilter,
    UpVotersSpec.cursorRowExists, UpVotersSpec.keysetRange.
  destruct isInversed; cbn [UpVoters.where_ drizzle.eval fold_right];
    repeat (rewrite FilterFacts.holds_and3 || rewrite FilterFacts.holds_or3);
    rewrite !FilterFacts.holds_createdAt, !FilterFacts.holds_creatorId,
      FilterFacts.holds_commentId, FilterFacts.holds_type_up_vote,
      FilterFacts.is_Eq_Z;
    cbn [drizzle.holds];
    rewrite (FilterFacts.existsb_pointwise _
               (UpVotersSpec.isCursorRow parent c))
      by (intro r; exact (FilterFacts.holds_cursor_row table parent c r));
    unfold UpVotersSpec.string_gtb, UpVotersSpec.string_ltb, Z.gtb, Z.ltb,
      drizzle.is_Gt, drizzle.is_Lt;
    destruct (CommentVote.creatorId row); btauto.
Qed.

Lemma selected_cursor client parent parsedArgs c row :
  cursor parsedArgs = Some c ->
  PageSpec.selected client parent parsedArgs row
  = UpVotersSpec.cursorFilter parent c (isInversed parsedArgs)
      (commentVotes client) row.
Proof.
  intro H. unfold PageSpec.selected. rewrite H. apply selects_cursor_filter.
Qed.

(** A selected row is an up vote of the comment. *)
Lemma selected_base client parent parsedArgs row :
  PageSpec.selected client parent parsedArgs row = true ->
  CommentVote.commentId row = Comment.id parent
  /\ CommentVote.type row = up_vote.
Proof.
  destruct (cursor parsedArgs) as [c|] eqn:E.
  - rewrite (selected_cursor _ _ _ _ _ E).
    unfold UpVotersSpec.cursorFilter, UpVotersSpec.baseFilter.
    intro H. apply andb_prop in H as [H _]. apply andb_prop in H as [H _].
    apply andb_prop in H as [H1 H2]. apply String.eqb_eq in H1.
    split; [exact H1|]. now destruct (CommentVote.type row).
  - unfold PageSpec.selected. rewrite E.
    now rewrite where_without_cursor_selects_nothing.
Qed.

Lemma fetch_rows client parent parsedArgs :
  UpVoters.fetch client parent parsedArgs
  = map (UpVoters.withCreator client)
      (PageSpec.rows client parent parsedArgs).
Proof. reflexivity. Qed.

Lemma rows_In client parent parsedArgs row :
  In row (PageSpec.rows client parent parsedArgs) ->
  In row (commentVotes client)
  /\ PageSpec.selected client parent parsedArgs row = true.
Proof. apply OrderFacts.findMany_In. Qed.

Lemma fetch_In client parent parsedArgs vote :
  In vote (UpVoters.fetch client parent parsedArgs) ->
  exists row,
    In row (commentVotes client)
    /\ PageSpec.selected client parent parsedArgs row = true
    /\ vote = UpVoters.withCreator client row.
Proof.
  rewrite fetch_rows. intro H. apply in_map_iff in H as (row & <- & Hin).
  apply rows_In in Hin as [H1 H2]. eauto.
Qed.

Lemma fetch_length client parent parsedArgs :
  List.length (UpVoters.fetch client parent parsedArgs) <= limit parsedArgs.
Proof.
  rewrite fetch_rows, length_map. unfold PageSpec.rows, drizzle.findMany.
  apply firstn_le_length.
Qed.

Lemma filterCreators_length votes :
  List.length (UpVoters.filterCreators votes) <= List.length votes.
Proof.
  induction votes as [|vote votes IH]; simpl; [lia|].
  destruct (UpVoters.hasCreator vote); simpl; lia.
Qed.

(** What the resolver returns when it does not throw. *)
Lemma upVoters_Ok {decl : Declarations} parent args client conn :
  UpVoters.upVoters parent args client = Ok conn ->
  exists parsedArgs,
    UpVoters.upVotersArgumentsSchema_safeParse args = Zod.success parsedArgs
    /\ edges conn
       = map (fun vote => {| Edge.cursor := UpVoters.createCursor vote;
                             Edge.node := Vote.creator vote |})
           (UpVoters.filterCreators (UpVoters.fetch client parent parsedArgs)).
Proof.
  unfold UpVoters.upVoters.
  destruct (UpVoters.upVotersArgumentsSchema_safeParse args)
    as [parsedArgs|error_issues]; [|discriminate].
  destruct (_ && _); [discriminate|].
  intros [= <-]. exists parsedArgs. auto.
Qed.

End PageMoreFacts.

(** X1: a connection that is returned has at most [limit] edges, the limit
    being that of the parsed arguments. *)
Theorem page_within_limit {decl : Declarations} (parent : Comment.t)
    (args : Args) (client : DrizzleClient) (conn : Connection) :
  UpVoters.upVoters parent args client = Ok conn ->
  exists parsedArgs,
    UpVoters.upVotersArgumentsSchema_safeParse args = Zod.success parsedArgs
    /\ List.length (edges conn) <= limit parsedArgs.
Proof.
  intro H. apply PageMoreFacts.upVoters_Ok in H as (parsedArgs & Hp & He).
  exists parsedArgs. split; [exact Hp|].
  rewrite He, length_map.
  etransitivity; [apply PageMoreFacts.filterCreators_length|].
  apply PageMoreFacts.fetch_length.
Qed.

Lemma page_within_limit_witness :
  exists parsedArgs,
    UpVoters.upVotersArgumentsSchema_safeParse (decl := Example.declarations)
      {| cursor := Some Example.firstCursor; isInversed := true; limit := 2 |}
    = Zod.success parsedArgs
    /\ 1 <= limit parsedArgs.
Proof.
  destruct (page_within_limit (decl := Example.declarations) Example.comment
              {| cursor := Some Example.firstCursor;
                 isInversed := true; limit := 2 |}
              Example.client
              {| edges :=
                   [ {| Edge.cursor :=
                          UpVoters.createCursor
                            {| Vote.createdAt := 1704067202000%Z;
                               Vote.creatorId := Some (User.id Example.bob);
                               Vote.creator := Example.bob |};
                        Edge.node := Example.bob |} ] |})
    as (parsedArgs & Hp & Hl).
  - reflexivity.
  - exists parsedArgs. split; [exact Hp|exact Hl].
Defined.

Module NodeFacts.

Lemma withCreator_creator client row u :
  Vote.creator (UpVoters.withCreator client row) = Some u ->
  CommentVote.creatorId row = Some (User.id u) /\ In u (users client).
Proof.
  cbn [UpVoters.withCreator Vote.creator].
  destruct (CommentVote.creatorId row) as [i|]; [|discriminate].
  intro H. apply find_some in H as [Hin He].
  apply String.eqb_eq in He. subst i. auto.
Qed.

Lemma createCursor_hasCreator vote v :
  UpVoters.hasCreator vote = Some v ->
  UpVoters.createCursor v = UpVoters.createCursor vote.
Proof.
  intro H. apply PageFacts.hasCreator_keys in H as (H1 & H2 & _).
  unfold UpVoters.createCursor. now rewrite H1, H2.
Qed.

(** Where a raw node comes from. *)
Lemma rawNode_row client parent parsedArgs v :
  In v (UpVoters.filterCreators (UpVoters.fetch client parent parsedArgs)) ->
  exists row,
    In row (commentVotes client)
    /\ PageSpec.selected client parent parsedArgs row = true
    /\ CommentVote.creatorId row = Some (User.id (Vote.creator v))
    /\ In (Vote.creator v) (users client)
    /\ Vote.createdAt v = CommentVote.createdAt row
    /\ Vote.creatorId v = CommentVote.creatorId row
    /\ UpVoters.createCursor v
       = UpVoters.createCursor (UpVoters.withCreator client row).
Proof.
  intro H. apply PageFacts.filterCreators_In in H as (vote & Hin & Hc).
  apply PageMoreFacts.fetch_In in Hin as (row & Hrow & Hsel & ->).
  pose proof (createCursor_hasCreator _ _ Hc) as Hcur.
  apply PageFacts.hasCreator_keys in Hc as (H1 & H2 & H3).
  apply withCreator_creator in H3 as [H4 H5].
  exists row. repeat split; auto.
Qed.

End NodeFacts.

(** X2: every edge of a returned connection stands for an up vote of the
    parent comment that is in the table: its node is the user of the users
    table the vote's [creatorId] names, and its cursor is the cursor of that
    vote.  No down vote and no vote of another comment gives an edge. *)
Theorem edges_are_up_voters {decl : Declarations} (parent : Comment.t)
    (args : Args) (client : DrizzleClient) (conn : Connection) :
  UpVoters.upVoters parent args client = Ok conn ->
  Forall (fun edge =>
            exists row,
              In row (commentVotes client)
              /\ CommentVote.commentId row = Comment.id parent
              /\ CommentVote.type row = up_vote
              /\ CommentVote.creatorId row = Some (User.id (Edge.node edge))
              /\ In (Edge.node edge) (users client)
              /\ Edge.cursor edge
                 = UpVoters.createCursor (UpVoters.withCreator client row))
    (edges conn).
Proof.
  intro H. apply PageMoreFacts.upVoters_Ok in H as (parsedArgs & Hp & ->).
  apply Forall_map, Forall_forall. intros v Hv. cbn [Edge.node Edge.cursor].
  apply NodeFacts.rawNode_row in Hv
    as (row & Hin & Hsel & Hid & Hu & _ & _ & Hcur).
  apply PageMoreFacts.selected_base in Hsel as [Hb1 Hb2].
  exists row. repeat split; auto.
Qed.

Lemma edges_are_up_voters_witness :
  Forall (fun edge =>
            exists row,
              In row (commentVotes Example.client)
              /\ CommentVote.commentId row = Comment.id Example.comment
              /\ CommentVote.type row = up_vote
              /\ CommentVote.creatorId row = Some (User.id (Edge.node edge))
              /\ In (Edge.node edge) (users Example.client)
              /\ Edge.cursor edge
                 = UpVoters.createCursor
                     (UpVoters.withCreator Example.client row))
    [ {| Edge.cursor :=
           UpVoters.createCursor
             {| Vote.createdAt := 1704067202000%Z;
                Vote.creatorId := Some (User.id Example.bob);
                Vote.creator := Example.bob |};
         Edge.node := Example.bob |} ].
Proof.
  apply (edges_are_up_voters (decl := Example.declarations) Example.comment
           {| cursor := Some Example.firstCursor;
              isInversed := true; limit := 2 |}
           Example.client {| edges := _ |}).
  reflexivity.
Defined.

Module RangeFacts.

Lemma keysetRange_beyond client isInversed c row :
  UpVotersSpec.keysetRange isInversed c row = true ->
  PageSpec.beyond isInversed c (UpVoters.withCreator client row).
Proof.
  unfold UpVotersSpec.keysetRange, PageSpec.beyond,
    UpVotersSpec.string_gtb, UpVotersSpec.string_ltb.
  cbn [UpVoters.withCreator Vote.createdAt Vote.creatorId].
  destruct isInversed; intro H; apply orb_prop in H as [H|H].
  - apply andb_prop in H as [H1 H2]. apply Z.eqb_eq in H1.
    right. split; [exact H1|].
    destruct (CommentVote.creatorId row) as [i|]; [|discriminate].
    exists i. split; [reflexivity|].
    now destruct (String.compare i (Cursor.creatorId c)).
  - left. apply Z.gtb_lt in H. exact H.
  - apply andb_prop in H as [H1 H2]. apply Z.eqb_eq in H1.
    right. split; [exact H1|].
    destruct (CommentVote.creatorId row) as [i|]; [|discriminate].
    exists i. split; [reflexivity|].
    now destruct (String.compare i (Cursor.creatorId c)).
  - left. apply Z.ltb_lt in H. exact H.
Qed.

Lemma beyond_not_sameKey {U} isInversed c (vote : Vote.t U) :
  PageSpec.beyond isInversed c vote -> ~ PageSpec.sameKey c vote.
Proof.
  unfold PageSpec.beyond, PageSpec.sameKey.
  intros H [H1 H2].
  destruct isInversed; destruct H as [H|(_ & i & Hi & Hc)]; try lia;
    rewrite H2 in Hi; injection Hi as <-;
    now rewrite OrderFacts.string_compare_refl in Hc.
Qed.

Lemma filter_none {A} (p : A -> bool) l :
  (forall x, p x = false) -> filter p l = [].
Proof.
  intro H. induction l as [|x l IH]; simpl; [reflexivity|]. now rewrite H.
Qed.

(** Without the row of the cursor, nothing is fetched. *)
Lemma fetch_without_cursor_row client parent parsedArgs c :
  cursor parsedArgs = Some c ->
  UpVotersSpec.cursorRowExists parent c (commentVotes client) = false ->
  UpVoters.fetch client parent parsedArgs = [].
Proof.
  intros Hc He. unfold UpVoters.fetch, drizzle.findMany.
  rewrite filter_none; [now rewrite firstn_nil|].
  intro row. rewrite Hc, PageMoreFacts.selects_cursor_filter.
  unfold UpVotersSpec.cursorFilter. rewrite He.
  now rewrite andb_false_r.
Qed.

Lemma fetch_without_cursor client parent parsedArgs :
  cursor parsedArgs = None ->
  UpVoters.fetch client parent parsedArgs = [].
Proof.
  intros Hc. unfold UpVoters.fetch, drizzle.findMany.
  rewrite filter_none; [now rewrite firstn_nil|].
  intro row. rewrite Hc. apply where_without_cursor_selects_nothing.
Qed.

End RangeFacts.

(** X3: every vote fetched with a cursor lies strictly beyond the cursor in
    the direction of the traversal, so none has the key of the cursor: the
    vote a page ended on is not repeated in the next one. *)
Theorem page_beyond_cursor (client : DrizzleClient) (parent : Comment.t)
    (parsedArgs : ConnectionArguments Cursor.t) (c : Cursor.t) :
  cursor parsedArgs = Some c ->
  Forall (fun vote =>
            PageSpec.beyond (isInversed parsedArgs) c vote
            /\ ~ PageSpec.sameKey c vote)
    (UpVoters.fetch client parent parsedArgs).
Proof.
  intro Hc. apply Forall_forall. intros vote Hin.
  apply PageMoreFacts.fetch_In in Hin as (row & _ & Hsel & ->).
  rewrite (PageMoreFacts.selected_cursor _ _ _ _ _ Hc) in Hsel.
  unfold UpVotersSpec.cursorFilter in Hsel.
  apply andb_prop in Hsel as [_ Hr].
  apply (RangeFacts.keysetRange_beyond client) in Hr.
  split; [exact Hr|]. eapply RangeFacts.beyond_not_sameKey; eauto.
Qed.

Lemma page_beyond_cursor_witness :
  Forall (fun vote =>
            PageSpec.beyond true
              {| Cursor.createdAt := 1704067200000;
                 Cursor.creatorId := User.id Example.ada |} vote
            /\ ~ PageSpec.sameKey
                   {| Cursor.createdAt := 1704067200000;
                      Cursor.creatorId := User.id Example.ada |} vote)
    (UpVoters.fetch Example.client Example.comment
       {| cursor := Some {| Cursor.createdAt := 1704067200000;
                            Cursor.creatorId := User.id Example.ada |};
          isInversed := true; limit := 2 |}).
Proof.
  apply (page_beyond_cursor Example.client Example.comment
           {| cursor := Some {| Cursor.createdAt := 1704067200000;
                                Cursor.creatorId := User.id Example.ada |};
              isInversed := true; limit := 2 |}).
  reflexivity.
Defined.

(** X5: when the row the cursor was made from is no longer among the up
    votes of the comment, the resolver throws "arguments associated
    resources not found" on the argument of the cursor, whatever else the
    table holds. *)
Theorem cursor_row_gone {decl : Declarations} (parent : Comment.t)
    (args : Args) (client : DrizzleClient)
    (parsedArgs : ConnectionArguments Cursor.t) (c : Cursor.t) :
  UpVoters.upVotersArgumentsSchema_safeParse args = Zod.success parsedArgs ->
  cursor parsedArgs = Some c ->
  UpVotersSpec.cursorRowExists parent c (commentVotes client) = false ->
  UpVoters.upVoters parent args client
  = Err {| extensions :=
             {| code := arguments_associated_resources_not_found;
                issues :=
                  [ {| argumentPath :=
                         [if isInversed parsedArgs then "before" else "after"];
                       message := None |} ] |};
           errorMessage :=
             "No associated resources found for the provided arguments." |}.
Proof.
  intros Hp Hc He. unfold UpVoters.upVoters. rewrite Hp.
  rewrite (RangeFacts.fetch_without_cursor_row _ _ _ _ Hc He), Hc.
  reflexivity.
Qed.

(** X6: a call accepted without a cursor returns a connection without
    edges, whatever the table holds: the condition [ne(creatorId, null)] of
    its filter is a comparison with null, which no row satisfies. *)
Theorem page_without_cursor_is_empty {decl : Declarations}
    (parent : Comment.t) (args : Args) (client : DrizzleClient)
    (parsedArgs : ConnectionArguments Cursor.t) :
  UpVoters.upVotersArgumentsSchema_safeParse args = Zod.success parsedArgs ->
  cursor parsedArgs = None ->
  UpVoters.upVoters parent args client = Ok {| edges := [] |}.
Proof.
  intros Hp Hc. unfold UpVoters.upVoters. rewrite Hp.
  rewrite (RangeFacts.fetch_without_cursor _ _ _ Hc), Hc.
  reflexivity.
Qed.

Lemma page_without_cursor_is_empty_witness :
  UpVoters.upVoters (decl := Example.declarations) Example.comment
    {| cursor := None; isInversed := false; limit := 3 |} Example.client
  = Ok {| edges := [] |}.
Proof.
  apply (page_without_cursor_is_empty (decl := Example.declarations)
           Example.comment
           {| cursor := None; isInversed := false; limit := 3 |}
           Example.client
           {| cursor := None; isInversed := false; limit := 3 |});
    reflexivity.
Defined.

Lemma cursor_row_gone_witness :
  UpVoters.upVoters (decl := Example.declarations) Example.comment
    {| cursor :=
         Some (UpVoters.createCursor
                 {| Vote.createdAt := 1704067209000%Z;
                    Vote.creatorId := Some (User.id Example.ada);
                    Vote.creator := Example.ada |});
       isInversed := false; limit := 2 |}
    Example.client
  = Err (resourcesNotFound ["after"]).
Proof.
  apply (cursor_row_gone (decl := Example.declarations) Example.comment
           {| cursor :=
                Some (UpVoters.createCursor
                        {| Vote.createdAt := 1704067209000%Z;
                           Vote.creatorId := Some (User.id Example.ada);
                           Vote.creator := Example.ada |});
              isInversed := false; limit := 2 |}
           Example.client
           {| cursor := Some {| Cursor.createdAt := 1704067209000;
                                Cursor.creatorId := User.id Example.ada |};
              isInversed := false; limit := 2 |}
           {| Cursor.createdAt := 1704067209000;
              Cursor.creatorId := User.id Example.ada |});
    vm_compute; reflexivity.
Defined.

Module PrefixFacts.

Lemma sorted_app {A} (rel : A -> A -> Prop) (a b : list A) :
  StronglySorted rel (a ++ b) ->
  forall x y, In x a -> In y b -> rel x y.
Proof.
  induction a as [|z a IH]; simpl; [tauto|].
  intros H x y [<-|Hx] Hy.
  - apply StronglySorted_inv in H as [_ H].
    eapply Forall_forall in H; [exact H|]. apply in_or_app. auto.
  - apply StronglySorted_inv in H as [H _]. eauto.
Qed.

Lemma skipn_In_length {A} n (l : list A) x :
  In x (skipn n l) -> List.length (firstn n l) = n.
Proof.
  intro H. rewrite length_firstn. apply Nat.min_l.
  destruct (Nat.le_gt_cases n (List.length l)) as [L|G]; [exact L|].
  rewrite skipn_all2 in H by lia. destruct H.
Qed.

(** A row that a sorted, limited query leaves out comes after the rows it
    returns, which are as many as the limit. *)
Lemma findMany_prefix {R C} (get : R -> C -> drizzle.Value) table limit
    orderBy where_ row :
  In row table ->
  drizzle.selects get table where_ row = true ->
  In row (drizzle.findMany get table limit orderBy where_)
  \/ (List.length (drizzle.findMany get table limit orderBy where_) = limit
      /\ Forall (fun p => drizzle.Before get orderBy p row)
           (drizzle.findMany get table limit orderBy where_)).
Proof.
  intros Hin Hsel. unfold drizzle.findMany.
  set (l := drizzle.sort get orderBy (filter _ table)).
  assert (Hl : In row l).
  { apply OrderFacts.sort_In, filter_In. auto. }
  rewrite <- (firstn_skipn limit l) in Hl.
  apply in_app_or in Hl as [Hl|Hl]; [now left|right].
  split; [eapply skipn_In_length; eauto|].
  apply Forall_forall. intros p Hp.
  eapply (sorted_app _ (firstn limit l) (skipn limit l)); eauto.
  rewrite firstn_skipn. apply OrderFacts.sort_sorted.
Qed.

End PrefixFacts.

(** X4: a page skips no vote.  A vote of the table that the filter of the
    page selects is on the page, or the page is full (as many votes as the
    limit) and all its votes come before that vote in the order of the
    traversal. *)
Theorem page_is_prefix (client : DrizzleClient) (parent : Comment.t)
    (parsedArgs : ConnectionArguments Cursor.t) (row : CommentVote.t) :
  In row (commentVotes client) ->
  PageSpec.selected client parent parsedArgs row = true ->
  In (UpVoters.withCreator client row)
    (UpVoters.fetch client parent parsedArgs)
  \/ (List.length (UpVoters.fetch client parent parsedArgs)
      = limit parsedArgs
      /\ Forall (fun vote =>
                   UpVotersSpec.ordered (isInversed parsedArgs) vote
                     (UpVoters.withCreator client row))
           (UpVoters.fetch client parent parsedArgs)).
Proof.
  intros Hin Hsel. rewrite PageMoreFacts.fetch_rows.
  destruct (PrefixFacts.findMany_prefix commentVotesTable.get
              (commentVotes client) (limit parsedArgs)
              (UpVoters.orderBy (isInversed parsedArgs))
              (UpVoters.where_ parent (cursor parsedArgs)
                 (isInversed parsedArgs)) row Hin Hsel) as [H|[Hlen Hall]].
  - left. now apply in_map.
  - right. rewrite length_map. split; [exact Hlen|].
    apply Forall_map. eapply Forall_impl; [|exact Hall].
    intros p Hp. now apply PageFacts.before_ordered.
Qed.

Lemma page_is_prefix_witness :
  let parsedArgs :=
    {| cursor := Some {| Cursor.createdAt := 1704067200000;
                         Cursor.creatorId := User.id Example.ada |};
       isInversed := true; limit := 2 |} in
  let row := Example.vote 1704067203000 (Some (User.id Example.cyd)) in
  In (UpVoters.withCreator Example.client row)
    (UpVoters.fetch Example.client Example.comment parsedArgs)
  \/ (List.length (UpVoters.fetch Example.client Example.comment parsedArgs)
      = 2
      /\ Forall (fun vote =>
                   UpVotersSpec.ordered true vote
                     (UpVoters.withCreator Example.client row))
           (UpVoters.fetch Example.client Example.comment parsedArgs)).
Proof.
  intros parsedArgs row.
  apply (page_is_prefix Example.client Example.comment parsedArgs row).
  - cbn. auto.
  - vm_compute. reflexivity.
Defined.

Module CursorMoreFacts.

(** The cursor made for a vote decodes to its key. *)
Lemma createCursor_decodes {decl : Declarations} {U : Type}
    (vote : Vote.t U) (creatorId : string) :
  Vote.creatorId vote = Some creatorId ->
  UpVotersSpec.validPair (Vote.createdAt vote) creatorId ->
  UpVoters.decodeCursor (UpVoters.createCursor vote)
  = Some {| Cursor.createdAt := Vote.createdAt vote;
            Cursor.creatorId := creatorId |}.
Proof.
  intros Hc [Ht Hi].
  unfold UpVoters.decodeCursor, UpVoters.createCursor, UpVoters.cursorObject.
  rewrite Base64UrlFacts.decode_encode, Hc.
  rewrite JSONFacts.parse_stringify_two_strings.
  cbn [UpVoters.cursorSchema_parse JSON.property String.eqb Ascii.eqb
         Bool.eqb].
  now rewrite Ht, Hi.
Qed.

(** A row of the base filter with a creator is the row of its own cursor. *)
Lemma row_is_its_cursor_row parent row i :
  CommentVote.commentId row = Comment.id parent ->
  CommentVote.type row = up_vote ->
  CommentVote.creatorId row = Some i ->
  UpVotersSpec.isCursorRow parent
    {| Cursor.createdAt := CommentVote.createdAt row;
       Cursor.creatorId := i |} row = true.
Proof.
  intros H1 H2 H3. unfold UpVotersSpec.isCursorRow.
  cbn [Cursor.createdAt Cursor.creatorId].
  now rewrite H1, H2, H3, Z.eqb_refl, !String.eqb_refl.
Qed.

End CursorMoreFacts.

(** X7: the cursors of a page can be given back.  When the column schemas
    read back the keys of the votes of the table, the cursor of every edge of
    a returned connection decodes, and the row it was made from passes the
    existence check of the filter on the same table. *)
Theorem edge_cursors_decode {decl : Declarations} (parent : Comment.t)
    (args : Args) (client : DrizzleClient) (conn : Connection) :
  UpVoters.upVoters parent args client = Ok conn ->
  (forall row i,
      In row (commentVotes client) ->
      CommentVote.creatorId row = Some i ->
      UpVotersSpec.validPair (CommentVote.createdAt row) i) ->
  Forall (fun edge =>
            exists c,
              UpVoters.decodeCursor (Edge.cursor edge) = Some c
              /\ UpVotersSpec.cursorRowExists parent c (commentVotes client)
                 = true)
    (edges conn).
Proof.
  intros H Hvalid.
  apply PageMoreFacts.upVoters_Ok in H as (parsedArgs & Hp & ->).
  apply Forall_map, Forall_forall. intros v Hv. cbn [Edge.cursor].
  apply NodeFacts.rawNode_row in Hv
    as (row & Hin & Hsel & Hid & _ & _ & _ & Hcur).
  apply PageMoreFacts.selected_base in Hsel as [Hb1 Hb2].
  exists {| Cursor.createdAt := CommentVote.createdAt row;
            Cursor.creatorId := User.id (Vote.creator v) |}.
  split.
  - rewrite Hcur.
    apply (CursorMoreFacts.createCursor_decodes
             (UpVoters.withCreator client row)); [exact Hid|].
    now apply Hvalid.
  - unfold UpVotersSpec.cursorRowExists. apply existsb_exists.
    exists row. split; [exact Hin|].
    now apply CursorMoreFacts.row_is_its_cursor_row.
Qed.

Lemma edge_cursors_decode_witness :
  Forall (fun edge =>
            exists c,
              UpVoters.decodeCursor (decl := Example.declarations)
                (Edge.cursor edge) = Some c
              /\ UpVotersSpec.cursorRowExists Example.comment c
                   (commentVotes Example.client) = true)
    [ {| Edge.cursor :=
           UpVoters.createCursor
             {| Vote.createdAt := 1704067202000%Z;
                Vote.creatorId := Some (User.id Example.bob);
                Vote.creator := Example.bob |};
         Edge.node := Example.bob |} ].
Proof.
  apply (edge_cursors_decode (decl := Example.declarations) Example.comment
           {| cursor := Some Example.firstCursor;
              isInversed := true; limit := 2 |}
           Example.client {| edges := _ |}).
  - reflexivity.
  - intros row i Hin Hi. cbn in Hin.
    destruct Hin as [<-|[<-|[<-|[<-|[]]]]]; try discriminate Hi;
      injection Hi as <-; split; vm_compute; reflexivity.
Defined.

(** X8: two votes with the same cursor have the same key, when the column
    schemas read their keys back: a cursor stands for one position. *)
Theorem cursor_identifies_position {decl : Declarations} {U : Type}
    (v1 v2 : Vote.t U) (i1 i2 : string) :
  Vote.creatorId v1 = Some i1 ->
  Vote.creatorId v2 = Some i2 ->
  UpVotersSpec.validPair (Vote.createdAt v1) i1 ->
  UpVotersSpec.validPair (Vote.createdAt v2) i2 ->
  UpVoters.createCursor v1 = UpVoters.createCursor v2 ->
  Vote.createdAt v1 = Vote.createdAt v2 /\ i1 = i2.
Proof.
  intros H1 H2 V1 V2 E.
  pose proof (CursorMoreFacts.createCursor_decodes v1 i1 H1 V1) as D1.
  pose proof (CursorMoreFacts.createCursor_decodes v2 i2 H2 V2) as D2.
  rewrite E, D2 in D1. injection D1 as -> ->. auto.
Qed.

Lemma cursor_identifies_position_witness :
  1704067200000%Z = 1704067200000%Z /\ User.id Example.ada = User.id Example.ada.
Proof.
  apply (cursor_identifies_position (decl := Example.declarations)
           (UpVoters.withCreator Example.client
              (Example.vote 1704067200000 (Some (User.id Example.ada))))
           {| Vote.createdAt := 1704067200000%Z;
              Vote.creatorId := Some (User.id Example.ada);
              Vote.creator := None |});
    try reflexivity; split; vm_compute; reflexivity.
Defined.

Module DirectionFacts.

Lemma string_compare_eq a b : String.compare a b = Eq <-> a = b.
Proof.
  split; [apply String.compare_eq_iff|].
  intros ->. apply OrderFacts.string_compare_refl.
Qed.

(** The range predicate of each direction, on a row with a creator. *)
Lemma keysetRange_inversed c row i :
  CommentVote.creatorId row = Some i ->
  UpVotersSpec.keysetRange true c row = true
  <-> (Cursor.createdAt c < CommentVote.createdAt row)%Z
      \/ (CommentVote.createdAt row = Cursor.createdAt c
          /\ String.compare i (Cursor.creatorId c) = Gt).
Proof.
  intro Hi. unfold UpVotersSpec.keysetRange, UpVotersSpec.string_gtb.
  rewrite Hi, orb_true_iff, andb_true_iff, Z.eqb_eq, Z.gtb_lt.
  destruct (String.compare i (Cursor.creatorId c)); intuition congruence.
Qed.

Lemma keysetRange_forward c row i :
  CommentVote.creatorId row = Some i ->
  UpVotersSpec.keysetRange false c row = true
  <-> (CommentVote.createdAt row < Cursor.createdAt c)%Z
      \/ (CommentVote.createdAt row = Cursor.createdAt c
          /\ String.compare i (Cursor.creatorId c) = Lt).
Proof.
  intro Hi. unfold UpVotersSpec.keysetRange, UpVotersSpec.string_ltb.
  rewrite Hi, orb_true_iff, andb_true_iff, Z.eqb_eq, Z.ltb_lt.
  destruct (String.compare i (Cursor.creatorId c)); intuition congruence.
Qed.

Lemma selects_range parent c isInversed table row :
  UpVotersSpec.baseFilter parent row = true ->
  UpVotersSpec.cursorRowExists parent c table = true ->
  drizzle.selects commentVotesTable.get table
    (UpVoters.where_ parent (Some c) isInversed) row
  = UpVotersSpec.keysetRange isInversed c row.
Proof.
  intros Hb He. rewrite PageMoreFacts.selects_cursor_filter.
  unfold UpVotersSpec.cursorFilter. now rewrite Hb, He.
Qed.

End DirectionFacts.

(** X9: the two directions split the votes around a cursor.  Of the up
    votes of the comment that have a creator, while the row of the cursor is
    there, each is selected by the filter of the inversed traversal, or by
    that of the forward traversal, or has the key of the cursor, and by one
    of the three only. *)
Theorem directions_split_votes (parent : Comment.t) (c : Cursor.t)
    (table : list CommentVote.t) (row : CommentVote.t) (i : string) :
  UpVotersSpec.baseFilter parent row = true ->
  UpVotersSpec.cursorRowExists parent c table = true ->
  CommentVote.creatorId row = Some i ->
  let inversed :=
    drizzle.selects commentVotesTable.get table
      (UpVoters.where_ parent (Some c) true) row = true in
  let forward :=
    drizzle.selects commentVotesTable.get table
      (UpVoters.where_ parent (Some c) false) row = true in
  let same :=
    CommentVote.createdAt row = Cursor.createdAt c
    /\ i = Cursor.creatorId c in
  (inversed \/ forward \/ same)
  /\ ~ (inversed /\ forward) /\ ~ (inversed /\ same) /\ ~ (forward /\ same).
Proof.
  intros Hb He Hi. cbv zeta.
  rewrite !(DirectionFacts.selects_range _ _ _ _ _ Hb He).
  rewrite (DirectionFacts.keysetRange_inversed _ _ _ Hi),
    (DirectionFacts.keysetRange_forward _ _ _ Hi).
  rewrite <- (DirectionFacts.string_compare_eq i (Cursor.creatorId c)).
  destruct (String.compare i (Cursor.creatorId c));
    destruct (Z.lt_trichotomy (CommentVote.createdAt row)
                (Cursor.createdAt c)) as [L|[E|G]];
    (split;
     [ first [ left; solve [intuition (lia || congruence)]
             | right; left; solve [intuition (lia || congruence)]
             | right; right; solve [intuition (lia || congruence)] ]
     | intuition (lia || congruence) ]).
Qed.

Lemma directions_split_votes_witness :
  let c := {| Cursor.createdAt := 1704067200000;
              Cursor.creatorId := User.id Example.ada |} in
  let row := Example.vote 1704067202000 (Some (User.id Example.bob)) in
  drizzle.selects commentVotesTable.get Example.votes
    (UpVoters.where_ Example.comment (Some c) true) row = true
  \/ drizzle.selects commentVotesTable.get Example.votes
       (UpVoters.where_ Example.comment (Some c) false) row = true
  \/ (CommentVote.createdAt row = Cursor.createdAt c
      /\ User.id Example.bob = Cursor.creatorId c).
Proof.
  intros c row.
  apply (directions_split_votes Example.comment c Example.votes row
           (User.id Example.bob)); reflexivity.
Defined.

(** ** More on [updateFund] *)

Module FundMoreFacts.

(** The update of the table, row by row. *)
Lemma update_table table input uid :
  fst (drizzle.update fundsTable.get table (UpdateFund.set input uid)
         (drizzle.eq fundsTable.id
            (drizzle.text (MutationUpdateFundInput.id input))))
  = map (FundTable.updateRow input uid) table.
Proof.
  unfold drizzle.update. cbn [fst]. apply map_ext. intro row.
  unfold FundTable.updateRow. now rewrite FundFacts.selects_fund_id.
Qed.

Lemma update_returning table input uid :
  snd (drizzle.update fundsTable.get table (UpdateFund.set input uid)
         (drizzle.eq fundsTable.id
            (drizzle.text (MutationUpdateFundInput.id input))))
  = map (UpdateFund.set input uid)
      (filter (fun row =>
                 String.eqb (Fund.id row) (MutationUpdateFundInput.id input))
         table).
Proof.
  unfold drizzle.update. cbn [snd]. f_equal. apply filter_ext. intro row.
  apply FundFacts.selects_fund_id.
Qed.

Lemma withFunds_same client : UpdateFund.withFunds client (funds client) = client.
Proof. now destruct client. Qed.

Lemma updateRow_id input uid row :
  Fund.id (FundTable.updateRow input uid row) = Fund.id row.
Proof.
  unfold FundTable.updateRow. now destruct (String.eqb _ _).
Qed.

Lemma updateRow_organizationId input uid row :
  Fund.organizationId (FundTable.updateRow input uid row)
  = Fund.organizationId row.
Proof.
  unfold FundTable.updateRow. now destruct (String.eqb _ _).
Qed.

Lemma updateRow_other input uid row :
  Fund.id row <> MutationUpdateFundInput.id input ->
  FundTable.updateRow input uid row = row.
Proof.
  intro H. unfold FundTable.updateRow.
  apply String.eqb_neq in H. now rewrite H.
Qed.

Lemma updateRow_target input uid row :
  Fund.id row = MutationUpdateFundInput.id input ->
  FundTable.updateRow input uid row = UpdateFund.set input uid row.
Proof.
  intro H. unfold FundTable.updateRow.
  apply String.eqb_eq in H. now rewrite H.
Qed.

Lemma set_set input uid fund :
  UpdateFund.set input uid (UpdateFund.set input uid fund)
  = UpdateFund.set input uid fund.
Proof.
  unfold UpdateFund.set. cbn.
  destruct (MutationUpdateFundInput.isTaxDeductible input),
    (MutationUpdateFundInput.name input); reflexivity.
Qed.

Lemma updateRow_updateRow input uid row :
  FundTable.updateRow input uid (FundTable.updateRow input uid row)
  = FundTable.updateRow input uid row.
Proof.
  unfold FundTable.updateRow at 2 3.
  destruct (String.eqb (Fund.id row) _) eqn:E.
  - apply String.eqb_eq in E. rewrite updateRow_target by exact E.
    apply set_set.
  - apply String.eqb_neq in E. now apply updateRow_other.
Qed.

Lemma map_updateRow_others input uid table :
  (forall f, In f table -> Fund.id f <> MutationUpdateFundInput.id input) ->
  map (FundTable.updateRow input uid) table = table.
Proof.
  induction table as [|x l IH]; intro H; simpl; [reflexivity|].
  rewrite updateRow_other by (apply H; now left).
  rewrite IH; [reflexivity|]. intros f Hf. apply H. now right.
Qed.

Lemma find_map {A} (p : A -> bool) (f : A -> A) l :
  (forall x, p (f x) = p x) ->
  find p (map f l) = option_map f (find p l).
Proof.
  intro H. induction l as [|x l IH]; simpl; [reflexivity|].
  rewrite H. now destruct (p x).
Qed.

Lemma find_none_iff {A} (p : A -> bool) l :
  find p l = None <-> forall x, In x l -> p x = false.
Proof.
  split; [apply find_none|].
  intro H. destruct (find p l) as [x|] eqn:E; [|reflexivity].
  apply find_some in E as [Hin Hp]. now rewrite (H x Hin) in Hp.
Qed.

Lemma filter_find_none {A} (p : A -> bool) l :
  find p l = None -> filter p l = [].
Proof.
  induction l as [|x l IH]; simpl; [reflexivity|].
  destruct (p x); [discriminate|exact IH].
Qed.

Lemma currentUser_None client uid :
  UpdateFund.currentUser client uid = None
  <-> forall u, In u (users client) -> User.id u <> uid.
Proof.
  unfold UpdateFund.currentUser, drizzle.findFirst. rewrite find_none_iff.
  split; intros H u Hu; specialize (H u Hu).
  - unfold drizzle.selects in H. cbn [drizzle.eval usersTable.get] in H.
    rewrite FundFacts.holds_eq_text in H. now apply String.eqb_neq.
  - unfold drizzle.selects. cbn [drizzle.eval usersTable.get].
    rewrite FundFacts.holds_eq_text. now apply String.eqb_neq.
Qed.

Lemma existingFund_find client input :
  UpdateFund.existingFund client input
  = find (fun row =>
            String.eqb (Fund.id row) (MutationUpdateFundInput.id input))
      (funds client).
Proof.
  unfold UpdateFund.existingFund, drizzle.findFirst.
  apply FundFacts.find_pointwise. intro row. apply FundFacts.selects_fund_id.
Qed.

Lemma existingFund_None client input :
  UpdateFund.existingFund client input = None
  <-> forall f, In f (funds client) ->
                Fund.id f <> MutationUpdateFundInput.id input.
Proof.
  rewrite existingFund_find, find_none_iff.
  split; intros H f Hf; specialize (H f Hf); now apply String.eqb_neq.
Qed.

(** The fund looked up in the table after the update. *)
Lemma existingFund_updated client input uid :
  UpdateFund.existingFund
    (UpdateFund.withFunds client
       (map (FundTable.updateRow input uid) (funds client))) input
  = option_map (UpdateFund.set input uid)
      (UpdateFund.existingFund client input).
Proof.
  rewrite !existingFund_find. cbn [UpdateFund.withFunds funds].
  rewrite find_map by (intro x; now rewrite updateRow_id).
  destruct (find _ (funds client)) as [fund|] eqn:E; [|reflexivity].
  apply find_some in E as [_ E]. apply String.eqb_eq in E.
  cbn [option_map]. now rewrite updateRow_target.
Qed.

(** The two ways a call ends: it throws and leaves the database as it is, or
    it gives no name, all its checks pass and it updates the fund it found. *)
Lemma updateFund_cases {decl : FundDeclarations} args currentClient client :
  (exists e,
      UpdateFund.updateFund args currentClient client = (Err e, client)
      /\ (e = drizzleError drizzle.noFieldsSelected
          \/ exists error,
               e = graphQLError error
               /\ code (extensions error) <> unexpected
               /\ code (extensions error)
                  <> forbidden_action_on_arguments_associated_resources))
  \/ (exists uid input user fund,
         currentClient = authenticatedClient uid
         /\ mutationUpdateFundArgumentsSchema_safeParse args
            = Zod.success input
         /\ UpdateFund.currentUser client uid = Some user
         /\ UpdateFund.existingFund client input = Some fund
         /\ MutationUpdateFundInput.name input = None
         /\ UpdateFund.notAuthorized user
              (hd_error (UpdateFund.organizationMembershipsWhereOrganization
                           client fund uid)) = false
         /\ UpdateFund.updateFund args currentClient client
            = (Ok (UpdateFund.set input uid fund),
               UpdateFund.withFunds client
                 (map (FundTable.updateRow input uid) (funds client)))).
Proof.
  assert (own : forall error,
             code (extensions error) <> unexpected ->
             code (extensions error)
             <> forbidden_action_on_arguments_associated_resources ->
             graphQLError error = drizzleError drizzle.noFieldsSelected
             \/ exists error',
                  graphQLError error = graphQLError error'
                  /\ code (extensions error') <> unexpected
                  /\ code (extensions error')
                     <> forbidden_action_on_arguments_associated_resources)
    by (intros error H1 H2; right; eauto).
  destruct currentClient as [|uid];
    [left; eexists; split; [reflexivity|apply own; discriminate]|].
  destruct (mutationUpdateFundArgumentsSchema_safeParse args)
    as [input|error_issues] eqn:Hp.
  2:{ left. unfold UpdateFund.updateFund. rewrite Hp.
      eexists; split; [reflexivity|apply own; discriminate]. }
  destruct (UpdateFund.currentUser client uid) as [user|] eqn:Hu.
  2:{ left. unfold UpdateFund.updateFund. rewrite Hp, Hu.
      eexists; split; [reflexivity|apply own; discriminate]. }
  destruct (UpdateFund.existingFund client input) as [fund|] eqn:Hf.
  2:{ left. unfold UpdateFund.updateFund. rewrite Hp, Hu, Hf.
      eexists; split; [reflexivity|apply own; discriminate]. }
  rewrite (FundFacts.updateFund_checks _ _ _ _ _ _ Hp Hu Hf).
  destruct (MutationUpdateFundInput.name input) eqn:Hn;
    [left; eexists; split; [reflexivity|now left]|].
  destruct (UpdateFund.notAuthorized _ _) eqn:Ha;
    [left; eexists; split; [reflexivity|apply own; discriminate]|].
  right. exists uid, input, user, fund. repeat split; auto.
Qed.

End FundMoreFacts.

(** X10: for an authenticated caller whose arguments are accepted, the
    resolver throws "unauthenticated" exactly when no row of the users table
    has the caller's id, whether the fund exists or not; nothing is
    updated. *)
Theorem caller_without_user_row {decl : FundDeclarations} (args : FundArgs)
    (uid : string) (client : DrizzleClient)
    (input : MutationUpdateFundInput.t) :
  mutationUpdateFundArgumentsSchema_safeParse args = Zod.success input ->
  UpdateFund.updateFund args (authenticatedClient uid) client
  = (Err (graphQLError
            {| extensions := {| code := unauthenticated; issues := [] |};
               errorMessage :=
                 "Only authenticated users can perform this action." |}),
     client)
  <-> (forall u, In u (users client) -> User.id u <> uid).
Proof.
  intro Hp. rewrite <- FundMoreFacts.currentUser_None.
  unfold UpdateFund.updateFund. rewrite Hp.
  destruct (UpdateFund.currentUser client uid) as [user|].
  - split; [|discriminate].
    destruct (UpdateFund.existingFund client input) as [fund|];
      [|discriminate].
    rewrite FundFacts.nameCheck_cases.
    destruct (MutationUpdateFundInput.name input); [discriminate|].
    destruct (UpdateFund.notAuthorized _ _); [discriminate|].
    destruct (drizzle.update _ _ _ _) as [table [|updated returning]];
      discriminate.
  - split; reflexivity.
Qed.

Lemma caller_without_user_row_witness :
  UpdateFund.updateFund (decl := Example.fundDeclarations) Example.newName
    (authenticatedClient "nobody") Example.fundClient
  = (Err (graphQLError UpdateFund.unauthenticatedError), Example.fundClient).
Proof.
  apply (caller_without_user_row (decl := Example.fundDeclarations)
           Example.newName "nobody" Example.fundClient Example.newName).
  - reflexivity.
  - intros u Hu. cbn in Hu. destruct Hu as [<-|[<-|[<-|[]]]]; discriminate.
Defined.

(** X11: for a caller who has a user row, the resolver throws "arguments
    associated resources not found" on [input.id] exactly when no fund has
    the id of the input, whatever the name given and the role of the
    caller; nothing is updated. *)
Theorem fund_not_found {decl : FundDeclarations} (args : FundArgs)
    (uid : string) (client : DrizzleClient)
    (input : MutationUpdateFundInput.t) (user : User.t) :
  mutationUpdateFundArgumentsSchema_safeParse args = Zod.success input ->
  UpdateFund.currentUser client uid = Some user ->
  UpdateFund.updateFund args (authenticatedClient uid) client
  = (Err (graphQLError
            {| extensions :=
                 {| code := arguments_associated_resources_not_found;
                    issues := [ {| argumentPath := ["input"; "id"];
                                   message := None |} ] |};
               errorMessage :=
                 "No associated resources found for the provided arguments." |}),
     client)
  <-> (forall f, In f (funds client) ->
                 Fund.id f <> MutationUpdateFundInput.id input).
Proof.
  intros Hp Hu. rewrite <- FundMoreFacts.existingFund_None.
  unfold UpdateFund.updateFund. rewrite Hp, Hu.
  destruct (UpdateFund.existingFund client input) as [fund|].
  - split; [|discriminate].
    rewrite FundFacts.nameCheck_cases.
    destruct (MutationUpdateFundInput.name input); [discriminate|].
    destruct (UpdateFund.notAuthorized _ _); [discriminate|].
    destruct (drizzle.update _ _ _ _) as [table [|updated returning]];
      discriminate.
  - split; reflexivity.
Qed.

Lemma fund_not_found_witness :
  UpdateFund.updateFund (decl := Example.fundDeclarations)
    Scenario.unknownFund (authenticatedClient (User.id Example.bob))
    Example.fundClient
  = (Err (graphQLError (resourcesNotFound ["input"; "id"])),
     Example.fundClient).
Proof.
  apply (fund_not_found (decl := Example.fundDeclarations)
           Scenario.unknownFund (User.id Example.bob) Example.fundClient
           Scenario.unknownFund Example.bob).
  - reflexivity.
  - reflexivity.
  - intros f Hf. cbn in Hf. destruct Hf as [<-|[<-|[]]]; discriminate.
Defined.

(** X12: the name check.  A call that finds its caller and its fund and
    gives a name, in use in the organization or free, by a caller who may
    update the fund or not, gets the error of the name query, "No fields
    selected", and nothing is updated.  So the resolver never throws its
    "forbidden action on arguments associated resources", whatever the
    call. *)
Theorem name_given_throws {decl : FundDeclarations} (args : FundArgs)
    (currentClient : CurrentClient) (client : DrizzleClient) :
  (forall uid input user fund name,
      currentClient = authenticatedClient uid ->
      mutationUpdateFundArgumentsSchema_safeParse args = Zod.success input ->
      UpdateFund.currentUser client uid = Some user ->
      UpdateFund.existingFund client input = Some fund ->
      MutationUpdateFundInput.name input = Some name ->
      UpdateFund.updateFund args currentClient client
      = (Err (drizzleError drizzle.noFieldsSelected), client))
  /\ (forall error client',
         UpdateFund.updateFund args currentClient client
         = (Err (graphQLError error), client') ->
         code (extensions error)
         <> forbidden_action_on_arguments_associated_resources).
Proof.
  split.
  - intros uid input user fund name -> Hp Hu Hf Hn.
    now rewrite (FundFacts.updateFund_checks _ _ _ _ _ _ Hp Hu Hf), Hn.
  - intros error client' H.
    destruct (FundMoreFacts.updateFund_cases args currentClient client)
      as [(e & He & [->|(error' & -> & _ & Hc)])
         |(uid & input & user & fund & _ & _ & _ & _ & _ & _ & Hr)].
    + rewrite He in H. discriminate.
    + rewrite He in H. now injection H as <- _.
    + rewrite Hr in H. discriminate.
Qed.

Lemma name_given_throws_witness :
  UpdateFund.updateFund (decl := Example.fundDeclarations)
    Scenario.takenName (authenticatedClient (User.id Example.bob))
    Example.fundClient
  = (Err (drizzleError drizzle.noFieldsSelected), Example.fundClient)
  /\ UpdateFund.updateFund (decl := Example.fundDeclarations)
       Example.newName (authenticatedClient (User.id Example.ada))
       Example.fundClient
     = (Err (drizzleError drizzle.noFieldsSelected), Example.fundClient).
Proof.
  split.
  - apply (proj1 (name_given_throws (decl := Example.fundDeclarations)
                    Scenario.takenName
                    (authenticatedClient (User.id Example.bob))
                    Example.fundClient)
             (User.id Example.bob) Scenario.takenName Example.bob
             Example.general "Building");
      reflexivity.
  - apply (proj1 (name_given_throws (decl := Example.fundDeclarations)
                    Example.newName
                    (authenticatedClient (User.id Example.ada))
                    Example.fundClient)
             (User.id Example.ada) Example.newName Example.ada
             Example.general "Relief");
      reflexivity.
Defined.

Module AcrossFacts.

(** When no other request writes, the resolver among other requests is the
    resolver. *)
Lemma still_updateFund {decl : FundDeclarations} args currentClient client :
  UpdateFundAcross.updateFund args currentClient (still client)
  = UpdateFund.updateFund args currentClient client.
Proof. reflexivity. Qed.

(** What the resolver does once its checks have passed. *)
Lemma passed_checks {decl : FundDeclarations} args uid t input user fund :
  mutationUpdateFundArgumentsSchema_safeParse args = Zod.success input ->
  UpdateFund.currentUser (atUserQuery t) uid = Some user ->
  UpdateFund.existingFund (atFundQuery t) input = Some fund ->
  MutationUpdateFundInput.name input = None ->
  UpdateFund.notAuthorized user
    (hd_error (UpdateFund.organizationMembershipsWhereOrganization
                 (atFundQuery t) fund uid)) = false ->
  UpdateFundAcross.updateFund args (authenticatedClient uid) t
  = (match UpdateFund.existingFund (atUpdate t) input with
     | Some found => Ok (UpdateFund.set input uid found)
     | None => Err (graphQLError UpdateFund.unexpectedError)
     end,
     UpdateFund.withFunds (atUpdate t)
       (map (FundTable.updateRow input uid) (funds (atUpdate t)))).
Proof.
  intros Hp Hu Hf Hn Ha.
  unfold UpdateFundAcross.updateFund.
  rewrite Hp, Hu, Hf, FundFacts.nameCheck_cases, Hn, Ha.
  destruct (drizzle.update _ _ _ _) as [table returning] eqn:E.
  pose proof (f_equal fst E) as Et. pose proof (f_equal snd E) as Er.
  rewrite FundMoreFacts.update_table in Et.
  rewrite FundMoreFacts.update_returning in Er. cbn [fst snd] in Et, Er.
  subst table returning. rewrite FundMoreFacts.existingFund_find.
  destruct (find _ (funds (atUpdate t))) as [found|] eqn:Ef.
  - apply FundFacts.find_filter_cons in Ef as [rest ->]. reflexivity.
  - now rewrite (FundMoreFacts.filter_find_none _ _ Ef).
Qed.

(** The two ways a call among other requests ends: it throws, and the
    database is the one its update statement found or would have found; or
    it gives no name and its update statement sets the fund of its id. *)
Lemma outcome {decl : FundDeclarations} args currentClient t :
  (exists e,
      UpdateFundAcross.updateFund args currentClient t = (Err e, atUpdate t))
  \/ (exists uid input updated,
         currentClient = authenticatedClient uid
         /\ mutationUpdateFundArgumentsSchema_safeParse args
            = Zod.success input
         /\ MutationUpdateFundInput.name input = None
         /\ UpdateFundAcross.updateFund args currentClient t
            = (Ok updated,
               UpdateFund.withFunds (atUpdate t)
                 (map (FundTable.updateRow input uid) (funds (atUpdate t))))).
Proof.
  destruct currentClient as [|uid]; [left; eexists; reflexivity|].
  destruct (mutationUpdateFundArgumentsSchema_safeParse args)
    as [input|error_issues] eqn:Hp.
  2:{ left. unfold UpdateFundAcross.updateFund. rewrite Hp.
      eexists; reflexivity. }
  destruct (UpdateFund.currentUser (atUserQuery t) uid) as [user|] eqn:Hu.
  2:{ left. unfold UpdateFundAcross.updateFund. rewrite Hp, Hu.
      eexists; reflexivity. }
  destruct (UpdateFund.existingFund (atFundQuery t) input) as [fund|] eqn:Hf.
  2:{ left. unfold UpdateFundAcross.updateFund. rewrite Hp, Hu, Hf.
      eexists; reflexivity. }
  destruct (MutationUpdateFundInput.name input) as [name|] eqn:Hn.
  { left. unfold UpdateFundAcross.updateFund.
    rewrite Hp, Hu, Hf, FundFacts.nameCheck_cases, Hn.
    eexists; reflexivity. }
  destruct (UpdateFund.notAuthorized user
              (hd_error (UpdateFund.organizationMembershipsWhereOrganization
                           (atFundQuery t) fund uid))) eqn:Ha.
  { left. unfold UpdateFundAcross.updateFund.
    rewrite Hp, Hu, Hf, FundFacts.nameCheck_cases, Hn, Ha.
    eexists; reflexivity. }
  rewrite (passed_checks _ _ _ _ _ _ Hp Hu Hf Hn Ha).
  destruct (UpdateFund.existingFund (atUpdate t) input) as [found|] eqn:Ef.
  - right. exists uid, input, (UpdateFund.set input uid found). auto.
  - left. eexists. f_equal.
    rewrite FundMoreFacts.map_updateRow_others;
      [apply FundMoreFacts.withFunds_same|].
    now apply FundMoreFacts.existingFund_None.
Qed.

End AcrossFacts.

(** X13: a call that throws writes nothing, also when other requests write
    between its queries: the database after it is the one its update
    statement would have found.  This holds for the "unexpected" error too,
    whose update statement matched no row, and for the error of a query. *)
Theorem error_writes_nothing {decl : FundDeclarations} (args : FundArgs)
    (currentClient : CurrentClient) (t : Timeline) (client' : DrizzleClient)
    (e : Thrown) :
  UpdateFundAcross.updateFund args currentClient t = (Err e, client') ->
  client' = atUpdate t.
Proof.
  intro H.
  destruct (AcrossFacts.outcome args currentClient t)
    as [(e' & He)|(uid & input & updated & _ & _ & _ & Hr)].
  - rewrite He in H. now injection H as _ <-.
  - rewrite Hr in H. discriminate.
Qed.

Lemma error_writes_nothing_witness :
  snd (UpdateFundAcross.updateFund (decl := Example.fundDeclarations)
         Example.onlyTaxDeductible
         (authenticatedClient (User.id Example.cyd)) Scenario.deleted)
  = atUpdate Scenario.deleted
  /\ snd (UpdateFundAcross.updateFund (decl := Example.fundDeclarations)
            Example.sameName (authenticatedClient (User.id Example.ada))
            (still Example.fundClient))
     = Example.fundClient.
Proof.
  split.
  - apply (error_writes_nothing (decl := Example.fundDeclarations)
             Example.onlyTaxDeductible
             (authenticatedClient (User.id Example.cyd)) Scenario.deleted _
             (graphQLError UpdateFund.unexpectedError)).
    reflexivity.
  - apply (error_writes_nothing (decl := Example.fundDeclarations)
             Example.sameName (authenticatedClient (User.id Example.ada))
             (still Example.fundClient) _
             (drizzleError drizzle.noFieldsSelected)).
    reflexivity.
Defined.

(** X14: when no other request writes between the queries of a call, the
    resolver never throws "unexpected": the update finds the fund that the
    lookup found. *)
Theorem never_unexpected_alone {decl : FundDeclarations} (args : FundArgs)
    (currentClient : CurrentClient) (client client' : DrizzleClient)
    (e : TalawaGraphQLError) :
  UpdateFund.updateFund args currentClient client
  = (Err (graphQLError e), client') ->
  code (extensions e) <> unexpected.
Proof.
  intro H.
  destruct (FundMoreFacts.updateFund_cases args currentClient client)
    as [(e' & He & [->|(error & -> & Hc & _)])
       |(uid & input & user & fund & _ & _ & _ & _ & _ & _ & Hr)].
  - rewrite He in H. discriminate.
  - rewrite He in H. now injection H as <- _.
  - rewrite Hr in H. discriminate.
Qed.

Lemma never_unexpected_alone_witness :
  code (extensions UpdateFund.unauthorizedError) <> unexpected.
Proof.
  apply (never_unexpected_alone (decl := Example.fundDeclarations)
           Example.onlyTaxDeductible
           (authenticatedClient (User.id Example.bob))
           Example.fundClient Example.fundClient UpdateFund.unauthorizedError).
  reflexivity.
Defined.

(** X15: after a call that succeeds, the lookup of the fund by the id of the
    input finds the fund that the call returned. *)
Theorem lookup_after_update {decl : FundDeclarations} (args : FundArgs)
    (currentClient : CurrentClient) (client client' : DrizzleClient)
    (input : MutationUpdateFundInput.t) (updated : Fund.t) :
  mutationUpdateFundArgumentsSchema_safeParse args = Zod.success input ->
  UpdateFund.updateFund args currentClient client = (Ok updated, client') ->
  UpdateFund.existingFund client' input = Some updated.
Proof.
  intros Hp H.
  destruct (FundMoreFacts.updateFund_cases args currentClient client)
    as [(e' & He & _)
       |(uid & input' & user & fund & _ & Hp' & _ & Hf & _ & _ & Hr)].
  - rewrite He in H. discriminate.
  - rewrite Hp in Hp'. injection Hp' as <-.
    rewrite Hr in H. injection H as <- <-.
    rewrite FundMoreFacts.existingFund_updated, Hf. reflexivity.
Qed.

Lemma lookup_after_update_witness :
  UpdateFund.existingFund
    (UpdateFund.withFunds Example.fundClient
       [ UpdateFund.set Example.onlyTaxDeductible (User.id Example.ada)
           Example.general;
         Example.building ])
    Example.onlyTaxDeductible
  = Some (UpdateFund.set Example.onlyTaxDeductible (User.id Example.ada)
            Example.general).
Proof.
  apply (lookup_after_update (decl := Example.fundDeclarations)
           Example.onlyTaxDeductible
           (authenticatedClient (User.id Example.ada))
           Example.fundClient); reflexivity.
Defined.

Module UniqueFacts.

Import FundTable.

Lemma map_id_updateRow input uid table :
  map Fund.id (map (FundTable.updateRow input uid) table) = map Fund.id table.
Proof.
  rewrite map_map. apply map_ext. intro row.
  apply FundMoreFacts.updateRow_id.
Qed.

(** Without a name in the input the keys are as they were. *)
Lemma key_updateRow_no_name input uid row :
  MutationUpdateFundInput.name input = None ->
  key (FundTable.updateRow input uid row) = key row.
Proof.
  intro H. unfold FundTable.updateRow, key, UpdateFund.set.
  destruct (String.eqb _ _); [|reflexivity]. cbn. now rewrite H.
Qed.

Lemma map_key_updateRow_no_name input uid table :
  MutationUpdateFundInput.name input = None ->
  map key (map (FundTable.updateRow input uid) table) = map key table.
Proof.
  intro H. rewrite map_map. apply map_ext. intro row.
  now apply key_updateRow_no_name.
Qed.

Lemma name_updateRow_no_name input uid row :
  MutationUpdateFundInput.name input = None ->
  Fund.name (FundTable.updateRow input uid row) = Fund.name row.
Proof.
  intro H. apply (f_equal snd (key_updateRow_no_name input uid row H)).
Qed.

End UniqueFacts.

(** X16: calls that run one after the other keep the funds table
    consistent.  If no two funds have the same id and no two funds of an
    organization have the same name, the same holds after a call, whatever
    its outcome. *)
Theorem unique_names_kept {decl : FundDeclarations} (args : FundArgs)
    (currentClient : CurrentClient) (client : DrizzleClient) :
  FundTable.uniqueIds (funds client) ->
  FundTable.uniqueNames (funds client) ->
  let client' := snd (UpdateFund.updateFund args currentClient client) in
  FundTable.uniqueIds (funds client')
  /\ FundTable.uniqueNames (funds client').
Proof.
  intros Hids Hnames. cbv zeta.
  destruct (FundMoreFacts.updateFund_cases args currentClient client)
    as [(e' & -> & _)
       |(uid & input & user & fund & _ & _ & _ & _ & Hn & _ & ->)];
    [split; assumption|].
  cbn [snd UpdateFund.withFunds funds].
  unfold FundTable.uniqueIds, FundTable.uniqueNames in *.
  rewrite UniqueFacts.map_id_updateRow.
  now rewrite (UniqueFacts.map_key_updateRow_no_name _ _ _ Hn).
Qed.

Lemma unique_names_kept_witness :
  let client' :=
    snd (UpdateFund.updateFund (decl := Example.fundDeclarations)
           Example.onlyTaxDeductible
           (authenticatedClient (User.id Example.ada))
           Example.fundClient) in
  FundTable.uniqueIds (funds client')
  /\ FundTable.uniqueNames (funds client').
Proof.
  apply (unique_names_kept (decl := Example.fundDeclarations)
           Example.onlyTaxDeductible
           (authenticatedClient (User.id Example.ada))
           Example.fundClient).
  - repeat constructor; cbn; intuition discriminate.
  - repeat constructor; cbn; intuition discriminate.
Defined.

Module RepeatFacts.

(** The call again, on the database the first call left. *)
Lemma second_call {decl : FundDeclarations} args uid input user fund client :
  mutationUpdateFundArgumentsSchema_safeParse args = Zod.success input ->
  UpdateFund.currentUser client uid = Some user ->
  UpdateFund.existingFund client input = Some fund ->
  MutationUpdateFundInput.name input = None ->
  let client' :=
    UpdateFund.withFunds client
      (map (FundTable.updateRow input uid) (funds client)) in
  let fund' := UpdateFund.set input uid fund in
  UpdateFund.updateFund args (authenticatedClient uid) client'
  = if UpdateFund.notAuthorized user
         (hd_error (UpdateFund.organizationMembershipsWhereOrganization
                      client fund uid))
    then (Err (graphQLError UpdateFund.unauthorizedError), client')
    else (Ok fund', client').
Proof.
  intros Hp Hu Hf Hn client' fund'.
  assert (Hf' : UpdateFund.existingFund client' input = Some fund').
  { unfold client'. now rewrite FundMoreFacts.existingFund_updated, Hf. }
  rewrite (FundFacts.updateFund_checks args uid client' input user fund'
             Hp Hu Hf'), Hn.
  change (UpdateFund.organizationMembershipsWhereOrganization
            client' fund' uid)
    with (UpdateFund.organizationMembershipsWhereOrganization
            client fund uid).
  destruct (UpdateFund.notAuthorized _ _); [reflexivity|].
  unfold fund'. rewrite FundMoreFacts.set_set. f_equal.
  unfold client', UpdateFund.withFunds.
  cbn [funds commentVotes organizationMemberships users].
  f_equal. rewrite map_map. apply map_ext. intro row.
  apply FundMoreFacts.updateRow_updateRow.
Qed.

End RepeatFacts.

(** X17: the mutation renames no fund.  After a call, whatever its outcome
    and the name it gives, every fund of the table has the name it had. *)
Theorem names_never_change {decl : FundDeclarations} (args : FundArgs)
    (currentClient : CurrentClient) (client : DrizzleClient) :
  map Fund.name (funds (snd (UpdateFund.updateFund args currentClient client)))
  = map Fund.name (funds client).
Proof.
  destruct (FundMoreFacts.updateFund_cases args currentClient client)
    as [(e' & -> & _)
       |(uid & input & user & fund & _ & _ & _ & _ & Hn & _ & ->)];
    [reflexivity|].
  cbn [snd UpdateFund.withFunds funds].
  rewrite map_map. apply map_ext. intro row.
  now apply UniqueFacts.name_updateRow_no_name.
Qed.

(** X18: a call that gave no name can be repeated.  The same call on the
    database it left returns the same fund and leaves that database as it
    is. *)
Theorem update_without_name_twice {decl : FundDeclarations} (args : FundArgs)
    (uid : string) (client client' : DrizzleClient)
    (input : MutationUpdateFundInput.t) (updated : Fund.t) :
  mutationUpdateFundArgumentsSchema_safeParse args = Zod.success input ->
  MutationUpdateFundInput.name input = None ->
  UpdateFund.updateFund args (authenticatedClient uid) client
  = (Ok updated, client') ->
  UpdateFund.updateFund args (authenticatedClient uid) client'
  = (Ok updated, client').
Proof.
  intros Hp Hname H.
  destruct (FundMoreFacts.updateFund_cases args (authenticatedClient uid)
              client)
    as [(e' & He & _)
       |(uid' & input' & user & fund & Hc & Hp' & Hu & Hf & _ & Ha & Hr)].
  - rewrite He in H. discriminate.
  - injection Hc as <-. rewrite Hp in Hp'. injection Hp' as <-.
    rewrite Hr in H. injection H as <- <-.
    now rewrite (RepeatFacts.second_call _ _ _ _ _ _ Hp Hu Hf Hname), Ha.
Qed.

Lemma update_without_name_twice_witness :
  let client' :=
    UpdateFund.withFunds Example.fundClient
      [ UpdateFund.set Example.onlyTaxDeductible (User.id Example.cyd)
          Example.general;
        Example.building ] in
  UpdateFund.updateFund (decl := Example.fundDeclarations)
    Example.onlyTaxDeductible (authenticatedClient (User.id Example.cyd))
    client'
  = (Ok (UpdateFund.set Example.onlyTaxDeductible (User.id Example.cyd)
           Example.general), client').
Proof.
  intro client'.
  apply (update_without_name_twice (decl := Example.fundDeclarations)
           Example.onlyTaxDeductible (User.id Example.cyd)
           Example.fundClient client' Example.onlyTaxDeductible);
    reflexivity.
Defined.

(** X19: a call that gives no name and passes its checks, and whose fund is
    deleted after its lookups and before its update, throws "unexpected" and
    writes nothing. *)
Theorem fund_deleted_before_update {decl : FundDeclarations} (args : FundArgs)
    (uid : string) (t : Timeline) (input : MutationUpdateFundInput.t)
    (user : User.t) (fund : Fund.t) :
  mutationUpdateFundArgumentsSchema_safeParse args = Zod.success input ->
  UpdateFund.currentUser (atUserQuery t) uid = Some user ->
  UpdateFund.existingFund (atFundQuery t) input = Some fund ->
  MutationUpdateFundInput.name input = None ->
  UpdateFundSpec.permitted (atFundQuery t) uid user fund ->
  (forall f, In f (funds (atUpdate t)) ->
             Fund.id f <> MutationUpdateFundInput.id input) ->
  UpdateFundAcross.updateFund args (authenticatedClient uid) t
  = (Err (graphQLError
            {| extensions := {| code := unexpected; issues := [] |};
               errorMessage := "Something went wrong. Please try again." |}),
     atUpdate t).
Proof.
  intros Hp Hu Hf Hn Ha Hgone.
  apply FundFacts.notAuthorized_false in Ha.
  rewrite (AcrossFacts.passed_checks _ _ _ _ _ _ Hp Hu Hf Hn Ha).
  rewrite (proj2 (FundMoreFacts.existingFund_None _ _) Hgone).
  rewrite FundMoreFacts.map_updateRow_others by exact Hgone.
  now rewrite FundMoreFacts.withFunds_same.
Qed.

Lemma fund_deleted_before_update_witness :
  UpdateFundAcross.updateFund (decl := Example.fundDeclarations)
    Example.onlyTaxDeductible (authenticatedClient (User.id Example.cyd))
    Scenario.deleted
  = (Err (graphQLError UpdateFund.unexpectedError), atUpdate Scenario.deleted).
Proof.
  apply (fund_deleted_before_update (decl := Example.fundDeclarations)
           Example.onlyTaxDeductible (User.id Example.cyd) Scenario.deleted
           Example.onlyTaxDeductible Example.cyd Example.general);
    try reflexivity.
  - now left.
  - intros f Hf. cbn in Hf. destruct Hf as [<-|[]]. discriminate.
Defined.

(** X20: the funds table stays consistent among other requests too.  If, in
    the table that the update statement of a call finds, no two funds have
    the same id and no two funds of an organization have the same name, the
    same holds of the table the call leaves, whatever was written between
    its queries: a call that gives a name stops at its name query, and one
    that gives none sets no name. *)
Theorem unique_names_kept_across {decl : FundDeclarations} (args : FundArgs)
    (currentClient : CurrentClient) (t : Timeline) :
  FundTable.uniqueIds (funds (atUpdate t)) ->
  FundTable.uniqueNames (funds (atUpdate t)) ->
  let client' := snd (UpdateFundAcross.updateFund args currentClient t) in
  FundTable.uniqueIds (funds client')
  /\ FundTable.uniqueNames (funds client').
Proof.
  intros Hids Hnames. cbv zeta.
  destruct (AcrossFacts.outcome args currentClient t)
    as [(e' & ->)|(uid & input & updated & _ & _ & Hn & ->)];
    [split; assumption|].
  cbn [snd UpdateFund.withFunds funds].
  unfold FundTable.uniqueIds, FundTable.uniqueNames in *.
  rewrite UniqueFacts.map_id_updateRow.
  now rewrite (UniqueFacts.map_key_updateRow_no_name _ _ _ Hn).
Qed.

Lemma unique_names_kept_across_witness :
  let client' :=
    snd (UpdateFundAcross.updateFund (decl := Example.fundDeclarations)
           Example.newName (authenticatedClient (User.id Example.cyd))
           Scenario.renamed) in
  FundTable.uniqueIds (funds client')
  /\ FundTable.uniqueNames (funds client').
Proof.
  apply (unique_names_kept_across (decl := Example.fundDeclarations)
           Example.newName (authenticatedClient (User.id Example.cyd))
           Scenario.renamed).
  - repeat constructor; cbn; intuition discriminate.
  - repeat constructor; cbn; intuition discriminate.
Defined.

(** X21: the two checks that come before any query.  A client that is not
    authenticated is refused as "unauthenticated" whatever its arguments;
    an authenticated client whose arguments are rejected gets "invalid
    arguments" with one issue for each issue of the schema, in their order,
    with its path and its message.  Neither depends on the database, which
    is left as it was. *)
Theorem checks_before_queries {decl : FundDeclarations} (args : FundArgs)
    (uid : string) (client : DrizzleClient) :
  UpdateFund.updateFund args unauthenticatedClient client
  = (Err (graphQLError
            {| extensions := {| code := unauthenticated; issues := [] |};
               errorMessage :=
                 "Only authenticated users can perform this action." |}),
     client)
  /\ forall error_issues,
       mutationUpdateFundArgumentsSchema_safeParse args
       = Zod.failure error_issues ->
       exists e,
         UpdateFund.updateFund args (authenticatedClient uid) client
         = (Err (graphQLError e), client)
         /\ code (extensions e) = invalid_arguments
         /\ map argumentPath (issues (extensions e))
            = map Zod.path error_issues
         /\ map message (issues (extensions e))
            = map (fun issue => Some (Zod.message issue)) error_issues.
Proof.
  split; [reflexivity|]. intros error_issues Hp.
  unfold UpdateFund.updateFund. rewrite Hp.
  eexists. split; [reflexivity|].
  cbn [invalidArguments extensions code issues].
  rewrite !map_map. repeat split.
Qed.

Lemma checks_before_queries_witness :
  UpdateFund.updateFund (decl := Example.fundDeclarations)
    Example.onlyTaxDeductible unauthenticatedClient Example.fundClient
  = (Err (graphQLError UpdateFund.unauthenticatedError), Example.fundClient)
  /\ exists e,
       UpdateFund.updateFund (decl := Scenario.strictDeclarations)
         Scenario.nothingGiven (authenticatedClient (User.id Example.ada))
         Example.fundClient
       = (Err (graphQLError e), Example.fundClient)
       /\ map argumentPath (issues (extensions e)) = [["input"]].
Proof.
  split.
  - apply (proj1 (checks_before_queries (decl := Example.fundDeclarations)
                    Example.onlyTaxDeductible (User.id Example.ada)
                    Example.fundClient)).
  - destruct (proj2 (checks_before_queries
                       (decl := Scenario.strictDeclarations)
                       Scenario.nothingGiven (User.id Example.ada)
                       Example.fundClient)
                [ {| Zod.code := "custom";
                     Zod.message :=
                       "At least one optional argument must be provided.";
                     Zod.path := ["input"] |} ] eq_refl)
      as (e & He & _ & Hpath & _).
    exists e. split; [exact He|exact Hpath].
Defined.
